(** * The websocket session provider of the OpenHands frontend

    A shallow embedding of [frontend/src/context/ws-client-provider.tsx]:
    the structural checks on inbound frames, the error classifier
    [updateStatusWhenErrorMessagePresent], and the handlers that the
    [WsClientProvider] component closes over ([send], [disconnect],
    [resetReplay], [skipToResults], [processMessageQueue], [handleMessage],
    [handleDisconnect], [handleError] and the connection effect).

    React state ([status], [events], [replayStatus]) and refs ([sioRef],
    [lastEventRef], [messageQueueRef], [processingQueueRef],
    [shouldProcessMessagesRef]) are the fields of one record that every
    handler takes and returns; callbacks run to completion one after the
    other, so a handler is a function on that record.  Calls into
    collaborators (the socket, the logger, the chat-error reporter, the redux
    store, the rate monitor, the assistant-message handler) are appended to a
    chronological [trace], and a [setTimeout] adds to a count of pending
    callbacks.

    What the embedding takes for granted:
    - a frame is an object ([Record<string, unknown>], the type of
      [handleMessage]'s parameter), hence truthy;
    - the collaborators return normally;
    - [resetReplay] reads the [events] of the latest render (the context
      value is rebuilt whenever [events] changes);
    - the component makes new closures of its handlers every time it
      renders, and React runs the connection effect after committing a render
      of its own; renders are numbered, and a handler is known by its event
      and the render that made it;
    - of socket.io: [sio.off(name, handler)] removes the first listener of
      that event that is this very closure, and nothing when there is none;
      [sio.disconnect()] on a connected socket emits [disconnect], with the
      reason [io client disconnect], to the listeners still attached before
      it returns, and on a socket that is not connected emits nothing;
      [sio.connected] is raised before [connect] is emitted and lowered before
      [disconnect] is. *)

From Stdlib Require Import ZArith Lia Bool Ascii String.
From stdpp Require Import base option strings list gmap pretty.

Set Warnings "-register-all".
Local Open Scope string_scope.
Local Open Scope list_scope.

(** ** JavaScript values carried by frames and error payloads *)

Module Js.

(** What socket.io hands to a listener is decoded JSON; [JUndefined] is
    what reading an absent property gives.  Numbers are the integers (event
    ids are), below the magnitude from which JavaScript prints an exponent. *)
Inductive JsVal :=
| JUndefined
| JNull
| JBool (b : bool)
| JNum (n : Z)
| JStr (s : string)
| JArr (items : list JsVal)
| JObj (fields : gmap string JsVal).

(** [Record<string, unknown>] *)
Abbreviation Obj := (gmap string JsVal).

Definition typeof (v : JsVal) : string :=
  match v with
  | JUndefined => "undefined"
  | JNull => "object"
  | JBool _ => "boolean"
  | JNum _ => "number"
  | JStr _ => "string"
  | JArr _ => "object"
  | JObj _ => "object"
  end.

(** [!!val] *)
Definition truthy (v : JsVal) : bool :=
  match v with
  | JUndefined | JNull => false
  | JBool b => b
  | JNum n => negb (n =? 0)%Z
  | JStr s => negb (String.eqb s "")
  | JArr _ | JObj _ => true
  end.

(** [o.k] on an object: the own property, or [undefined]. *)
Definition get (o : Obj) (k : string) : JsVal := default JUndefined (o !! k).

(** [k in o] on an object.  The names looked up by the provider ([id],
    [source], [type], [message], [timestamp], [data], [msg_id]) are not
    properties of [Object.prototype], so only own properties count. *)
Definition has (o : Obj) (k : string) : bool := bool_decide (is_Some (o !! k)).

(** [v.k] and [k in v] where [v] is only known to be a non-null object.
    None of the names above is an index or a property of arrays. *)
Definition getv (v : JsVal) (k : string) : JsVal :=
  match v with JObj o => get o k | _ => JUndefined end.

Definition inv (k : string) (v : JsVal) : bool :=
  match v with JObj o => has o k | _ => false end.

(** [v === "lit"] *)
Definition eq_str (v : JsVal) (lit : string) : bool :=
  match v with JStr s => String.eqb s lit | _ => false end.

(** [ToString], as applied by [parseInt] to its first argument.  Integers
    print in decimal; an array joins its elements with commas, [null] and
    [undefined] elements printing as the empty string. *)
Fixpoint toString (v : JsVal) : string :=
  match v with
  | JUndefined => "undefined"
  | JNull => "null"
  | JBool true => "true"
  | JBool false => "false"
  | JNum n => pretty n
  | JStr s => s
  | JArr items =>
      let elt x :=
        match x with JUndefined | JNull => "" | _ => toString x end in
      (fix join (l : list JsVal) : string :=
         match l with
         | [] => ""
         | [x] => elt x
         | x :: r => elt x +:+ "," +:+ join r
         end) items
  | JObj _ => "[object Object]"
  end.

(** A string is the sequence of bytes that encodes the JavaScript string in
    UTF-8.  The white space of one byte: TAB, LF, VT, FF, CR and SP. *)
Definition isWhiteSpace (c : ascii) : bool :=
  let n := nat_of_ascii c in
  ((9 <=? n)%nat && (n <=? 13)%nat) || (n =? 32)%nat.

Definition byte (c : ascii) (n : nat) : bool := (nat_of_ascii c =? n)%nat.

(** The white space of two bytes: U+00A0. *)
Definition isWhiteSpace2 (c d : ascii) : bool := byte c 194 && byte d 160.

(** The white space of three bytes: U+1680, U+2000 to U+200A, U+2028,
    U+2029, U+202F, U+205F, U+3000 and U+FEFF. *)
Definition isWhiteSpace3 (c d e : ascii) : bool :=
  let n := nat_of_ascii e in
  (byte c 225 && (byte d 154 && byte e 128)) ||
  (byte c 226 && (byte d 128 &&
                  (((128 <=? n)%nat && (n <=? 138)%nat) || byte e 168
                   || byte e 169 || byte e 175))) ||
  (byte c 226 && (byte d 129 && byte e 159)) ||
  (byte c 227 && (byte d 128 && byte e 128)) ||
  (byte c 239 && (byte d 187 && byte e 191)).

Definition digitValue (c : ascii) : option Z :=
  let n := nat_of_ascii c in
  if (48 <=? n)%nat && (n <=? 57)%nat then Some (Z.of_nat (n - 48)) else None.

(** The white space and line terminators that [parseInt] skips at the
    start of its argument. *)
Fixpoint skipWhiteSpace (s : string) : string :=
  match s with
  | String c r =>
      if isWhiteSpace c then skipWhiteSpace r
      else
        match r with
        | String d r1 =>
            if isWhiteSpace2 c d then skipWhiteSpace r1
            else
              match r1 with
              | String e r2 =>
                  if isWhiteSpace3 c d e then skipWhiteSpace r2 else s
              | EmptyString => s
              end
        | EmptyString => s
        end
  | EmptyString => s
  end.

(** The longest prefix of decimal digits, as a number: [None] when the
    prefix is empty. *)
Fixpoint digits (acc : option Z) (s : string) : option Z :=
  match s with
  | String c r =>
      match digitValue c with
      | Some d => digits (Some (10 * default 0%Z acc + d)%Z) r
      | None => acc
      end
  | EmptyString => acc
  end.

(** [parseInt(v, 10)]; [None] is [NaN].  The result is the exact integer
    where JavaScript rounds to a double; only whether it is [NaN] is used
    below. *)
Definition parseInt (v : JsVal) : option Z :=
  match skipWhiteSpace (toString v) with
  | String c r =>
      if Ascii.eqb c "-" then Z.opp <$> digits None r
      else if Ascii.eqb c "+" then digits None r
      else digits None (String c r)
  | EmptyString => None
  end.

(** A string that begins with a decimal digit. *)
Definition startsWithDigit (s : string) : Prop :=
  match s with
  | String c _ => is_Some (digitValue c)
  | EmptyString => False
  end.

Definition Number_isNaN (r : option Z) : bool :=
  match r with None => true | Some _ => false end.

End Js.
Import Js.

(** ** Structural checks on inbound frames *)

Definition isOpenHandsEvent (event : JsVal) : bool :=
  String.eqb (typeof event) "object" &&
  negb (match event with JNull => true | _ => false end) &&
  inv "id" event &&
  inv "source" event &&
  inv "message" event &&
  inv "timestamp" event.

Definition isUserMessage (event : Obj) : bool :=
  has event "source" &&
  has event "type" &&
  eq_str (get event "source") "user" &&
  eq_str (get event "type") "message".

Definition isAssistantMessage (event : Obj) : bool :=
  has event "source" &&
  has event "type" &&
  eq_str (get event "source") "agent" &&
  eq_str (get event "type") "message".

Definition isMessageAction (event : Obj) : bool :=
  isUserMessage event || isAssistantMessage event.


(** ** The provider's state *)

Inductive WsClientProviderStatus := CONNECTED | DISCONNECTED.

Inductive ReplayStatus := IN_PROGRESS | COMPLETED.

(** The socket held in [sioRef].  What the handlers read and write on it is
    the manager's [opts.query]; [connected] is socket.io's own flag;
    [listeners] are the handlers attached by [sio.on] and not removed since,
    each with its event and the render whose closure it is. *)
Record Socket := mkSocket {
  baseUrl : string;
  query : Obj;
  connected : bool;
  listeners : list (string * nat)
}.

Definition set_query (sio : Socket) (q : Obj) : Socket :=
  {| baseUrl := baseUrl sio; query := q; connected := connected sio;
     listeners := listeners sio |}.

Definition set_connected (sio : Socket) (b : bool) : Socket :=
  {| baseUrl := baseUrl sio; query := query sio; connected := b;
     listeners := listeners sio |}.

(** [sio.on(name, handler)], the handler being the closure of [render]. *)
Definition on (name : string) (render : nat) (sio : Socket) : Socket :=
  {| baseUrl := baseUrl sio; query := query sio; connected := connected sio;
     listeners := listeners sio ++ [(name, render)] |}.

Fixpoint removeListener (name : string) (render : nat)
    (l : list (string * nat)) : list (string * nat) :=
  match l with
  | [] => []
  | (n, r) :: l =>
      if String.eqb n name && (r =? render)%nat then l
      else (n, r) :: removeListener name render l
  end.

(** [sio.off(name, handler)], the handler being the closure of [render]. *)
Definition off (name : string) (render : nat) (sio : Socket) : Socket :=
  {| baseUrl := baseUrl sio; query := query sio; connected := connected sio;
     listeners := removeListener name render (listeners sio) |}.

(** The listeners of an event that are attached. *)
Definition listening (name : string) (sio : Socket) : list (string * nat) :=
  List.filter (fun l => String.eqb (fst l) name) (listeners sio).

(** Calls that leave the provider, in the order they are made. *)
Inductive Effect :=
| EventLogger_error (msg : string)
| sio_emit (name : string) (event : Obj)
| sio_off (name : string)
| sio_disconnect
| io_open (url : string) (q : Obj)
| sio_on (name : string)
| rate_record
| handleAssistantMessage (event : Obj)
| showChatError (message source : string) (metadata : JsVal)
                (msgId : option string)
| displayErrorToast (msg : string)
| dispatch (action : string)
| navigate (path : string).

Record State := mkState {
  sioRef : option Socket;
  status : WsClientProviderStatus;
  events : list Obj;
  replayStatus : ReplayStatus;
  lastEventRef : option Obj;
  messageQueueRef : list Obj;
  processingQueueRef : bool;
  shouldProcessMessagesRef : bool;
  (** pending [setTimeout] callbacks of [processMessageQueue] *)
  replayTimers : nat;
  (** pending [setTimeout] callbacks of [handleError] *)
  navigateTimers : nat;
  trace : list Effect;
  (** the render whose closures the facade and the effect refer to *)
  render : nat
}.

(** The state at mount: the initial values of [useState] and [useRef]. *)
Definition initialState : State :=
  {| sioRef := None; status := DISCONNECTED; events := [];
     replayStatus := IN_PROGRESS; lastEventRef := None;
     messageQueueRef := []; processingQueueRef := false;
     shouldProcessMessagesRef := true; replayTimers := 0;
     navigateTimers := 0; trace := []; render := 0 |}.

Section Updates.
Variable s : State.

Definition set_sioRef (v : option Socket) : State :=
  {| sioRef := v; status := status s; events := events s;
     replayStatus := replayStatus s; lastEventRef := lastEventRef s;
     messageQueueRef := messageQueueRef s;
     processingQueueRef := processingQueueRef s;
     shouldProcessMessagesRef := shouldProcessMessagesRef s;
     replayTimers := replayTimers s; navigateTimers := navigateTimers s;
     trace := trace s; render := render s |}.

Definition setStatus (v : WsClientProviderStatus) : State :=
  {| sioRef := sioRef s; status := v; events := events s;
     replayStatus := replayStatus s; lastEventRef := lastEventRef s;
     messageQueueRef := messageQueueRef s;
     processingQueueRef := processingQueueRef s;
     shouldProcessMessagesRef := shouldProcessMessagesRef s;
     replayTimers := replayTimers s; navigateTimers := navigateTimers s;
     trace := trace s; render := render s |}.

(** [setEvents] is always given an updater (or a constant), so queued
    updates compose in call order. *)
Definition setEvents (f : list Obj -> list Obj) : State :=
  {| sioRef := sioRef s; status := status s; events := f (events s);
     replayStatus := replayStatus s; lastEventRef := lastEventRef s;
     messageQueueRef := messageQueueRef s;
     processingQueueRef := processingQueueRef s;
     shouldProcessMessagesRef := shouldProcessMessagesRef s;
     replayTimers := replayTimers s; navigateTimers := navigateTimers s;
     trace := trace s; render := render s |}.

Definition setReplayStatus (v : ReplayStatus) : State :=
  {| sioRef := sioRef s; status := status s; events := events s;
     replayStatus := v; lastEventRef := lastEventRef s;
     messageQueueRef := messageQueueRef s;
     processingQueueRef := processingQueueRef s;
     shouldProcessMessagesRef := shouldProcessMessagesRef s;
     replayTimers := replayTimers s; navigateTimers := navigateTimers s;
     trace := trace s; render := render s |}.

Definition set_lastEventRef (v : option Obj) : State :=
  {| sioRef := sioRef s; status := status s; events := events s;
     replayStatus := replayStatus s; lastEventRef := v;
     messageQueueRef := messageQueueRef s;
     processingQueueRef := processingQueueRef s;
     shouldProcessMessagesRef := shouldProcessMessagesRef s;
     replayTimers := replayTimers s; navigateTimers := navigateTimers s;
     trace := trace s; render := render s |}.

Definition set_messageQueueRef (v : list Obj) : State :=
  {| sioRef := sioRef s; status := status s; events := events s;
     replayStatus := replayStatus s; lastEventRef := lastEventRef s;
     messageQueueRef := v;
     processingQueueRef := processingQueueRef s;
     shouldProcessMessagesRef := shouldProcessMessagesRef s;
     replayTimers := replayTimers s; navigateTimers := navigateTimers s;
     trace := trace s; render := render s |}.

Definition set_processingQueueRef (v : bool) : State :=
  {| sioRef := sioRef s; status := status s; events := events s;
     replayStatus := replayStatus s; lastEventRef := lastEventRef s;
     messageQueueRef := messageQueueRef s;
     processingQueueRef := v;
     shouldProcessMessagesRef := shouldProcessMessagesRef s;
     replayTimers := replayTimers s; navigateTimers := navigateTimers s;
     trace := trace s; render := render s |}.

Definition set_shouldProcessMessagesRef (v : bool) : State :=
  {| sioRef := sioRef s; status := status s; events := events s;
     replayStatus := replayStatus s; lastEventRef := lastEventRef s;
     messageQueueRef := messageQueueRef s;
     processingQueueRef := processingQueueRef s;
     shouldProcessMessagesRef := v;
     replayTimers := replayTimers s; navigateTimers := navigateTimers s;
     trace := trace s; render := render s |}.

Definition set_replayTimers (v : nat) : State :=
  {| sioRef := sioRef s; status := status s; events := events s;
     replayStatus := replayStatus s; lastEventRef := lastEventRef s;
     messageQueueRef := messageQueueRef s;
     processingQueueRef := processingQueueRef s;
     shouldProcessMessagesRef := shouldProcessMessagesRef s;
     replayTimers := v; navigateTimers := navigateTimers s;
     trace := trace s; render := render s |}.

Definition set_navigateTimers (v : nat) : State :=
  {| sioRef := sioRef s; status := status s; events := events s;
     replayStatus := replayStatus s; lastEventRef := lastEventRef s;
     messageQueueRef := messageQueueRef s;
     processingQueueRef := processingQueueRef s;
     shouldProcessMessagesRef := shouldProcessMessagesRef s;
     replayTimers := replayTimers s; navigateTimers := v;
     trace := trace s; render := render s |}.

(** A call into a collaborator. *)
Definition call (e : Effect) : State :=
  {| sioRef := sioRef s; status := status s; events := events s;
     replayStatus := replayStatus s; lastEventRef := lastEventRef s;
     messageQueueRef := messageQueueRef s;
     processingQueueRef := processingQueueRef s;
     shouldProcessMessagesRef := shouldProcessMessagesRef s;
     replayTimers := replayTimers s; navigateTimers := navigateTimers s;
     trace := trace s ++ [e]; render := render s |}.

Definition set_render (v : nat) : State :=
  {| sioRef := sioRef s; status := status s; events := events s;
     replayStatus := replayStatus s; lastEventRef := lastEventRef s;
     messageQueueRef := messageQueueRef s;
     processingQueueRef := processingQueueRef s;
     shouldProcessMessagesRef := shouldProcessMessagesRef s;
     replayTimers := replayTimers s; navigateTimers := navigateTimers s;
     trace := trace s; render := v |}.
End Updates.

(** The component renders again: its handlers are new closures. *)
Definition rerender (s : State) : State := set_render s (S (render s)).

(** [lastEventRef.current?.id], the resume cursor. *)
Definition lastDeliveredId (s : State) : JsVal :=
  match lastEventRef s with
  | Some e => get e "id"
  | None => JUndefined
  end.

(** [!Number.isNaN(parseInt(event.id as string, 10))] *)
Definition idParses (event : Obj) : bool :=
  negb (Number_isNaN (parseInt (get event "id"))).

(** ** Error payload classification *)

Definition isObject (val : JsVal) : bool :=
  truthy val && String.eqb (typeof val) "object".

Definition isString (val : JsVal) : bool := String.eqb (typeof val) "string".

Definition updateStatusWhenErrorMessagePresent (data : JsVal) (s : State)
  : State :=
  if isObject data && inv "message" data && isString (getv data "message")
  then
    match getv data "message" with
    | JStr message =>
        if String.eqb message "websocket error" || String.eqb message "timeout"
        then s
        else
          let msgId : option string := None in
          let metadata := JObj ∅ in
          let '(msgId, metadata) :=
            if inv "data" data && isObject (getv data "data") then
              let msgId :=
                if inv "msg_id" (getv data "data")
                   && isString (getv (getv data "data") "msg_id")
                then match getv (getv data "data") "msg_id" with
                     | JStr i => Some i
                     | _ => msgId
                     end
                else msgId in
              (msgId, getv data "data")
            else (msgId, metadata) in
          call s (showChatError message "websocket" metadata msgId)
    | _ => s
    end
  else s.

(** ** The handlers of the provider *)

Definition send (event : Obj) (s : State) : State :=
  match sioRef s with
  | None => call s (EventLogger_error "WebSocket is not connected.")
  | Some _ => call s (sio_emit "oh_user_action" event)
  end.

Definition handleDisconnect (data : JsVal) (s : State) : State :=
  let s := setStatus s DISCONNECTED in
  match sioRef s with
  | None => s
  | Some sio =>
      let sio :=
        set_query sio
          (<["latest_event_id" := lastDeliveredId s]> (query sio)) in
      let s := set_sioRef s (Some sio) in
      updateStatusWhenErrorMessagePresent data s
  end.

(** [sio.off(name, handler)] on the socket held, the handler being the
    closure of the render that makes the call. *)
Definition offHeld (name : string) (s : State) : State :=
  let s := call s (sio_off name) in
  set_sioRef s (off name (render s) <$> sioRef s).

(** The five [sio.off] calls that both [disconnect] and the connection
    effect make. *)
Definition detach (s : State) : State :=
  let s := offHeld "connect" s in
  let s := offHeld "oh_event" s in
  let s := offHeld "connect_error" s in
  let s := offHeld "connect_failed" s in
  offHeld "disconnect" s.

(** [sio.disconnect()] on the socket held: when it is connected, socket.io
    lowers [connected] and runs the [disconnect] listeners still attached,
    which are closures of [handleDisconnect], before the call returns. *)
Definition closeHeld (s : State) : State :=
  let s := call s sio_disconnect in
  match sioRef s with
  | Some sio =>
      if connected sio then
        let s := set_sioRef s (Some (set_connected sio false)) in
        foldl (fun s _ => handleDisconnect (JStr "io client disconnect") s)
              s (listening "disconnect" sio)
      else s
  | None => s
  end.

Definition disconnect (s : State) : State :=
  match sioRef s with
  | Some _ =>
      let s := detach s in
      let s := closeHeld s in
      let s := set_sioRef s None in
      setStatus s DISCONNECTED
  | None => s
  end.

Definition handleConnect (s : State) : State := setStatus s CONNECTED.

(** [setTimeout(..., 1000)] in [processMessageQueue]: one more callback is
    pending. *)
Definition setTimeout_replay (s : State) : State :=
  set_replayTimers s (S (replayTimers s)).

Definition processMessageQueue (s : State) : State :=
  if negb (shouldProcessMessagesRef s)
     || processingQueueRef s
     || (length (messageQueueRef s) =? 0)%nat
  then
    if (length (messageQueueRef s) =? 0)%nat && negb (processingQueueRef s)
    then setReplayStatus s COMPLETED
    else s
  else
    let s := set_processingQueueRef s true in
    match messageQueueRef s with
    | event :: rest =>
        let s := set_messageQueueRef s rest in
        let s := setEvents s (fun prevEvents => prevEvents ++ [event]) in
        let s := if idParses event then set_lastEventRef s (Some event)
                 else s in
        let s := call s (handleAssistantMessage event) in
        setTimeout_replay s
    | [] =>
        let s := set_processingQueueRef s false in
        setReplayStatus s COMPLETED
    end.

(** The callback given to [setTimeout] by [processMessageQueue]. *)
Definition replayTimerCallback (s : State) : State :=
  let s := set_processingQueueRef s false in
  if negb (shouldProcessMessagesRef s) then s
  else
    let s := if (length (messageQueueRef s) =? 0)%nat
             then setReplayStatus s COMPLETED else s in
    processMessageQueue s.

(** One pending replay timer expires; [None] when none is pending. *)
Definition fireReplayTimer (s : State) : option State :=
  match replayTimers s with
  | O => None
  | S n => Some (replayTimerCallback (set_replayTimers s n))
  end.

Definition resetReplay (s : State) : State :=
  let s := setReplayStatus s IN_PROGRESS in
  let savedEvents := events s in
  let s := setEvents s (fun _ => []) in
  let s := set_messageQueueRef s savedEvents in
  let s := set_processingQueueRef s false in
  let s := call s (dispatch "clearMessages") in
  let s := call s (dispatch "setCurrentPathViewed") in
  let s := call s (dispatch "clearComputerList") in
  processMessageQueue s.

Definition skipToResults (s : State) : State :=
  if (length (messageQueueRef s) =? 0)%nat then s
  else
    let s := set_processingQueueRef s true in
    let allEvents := messageQueueRef s in
    let s := set_messageQueueRef s [] in
    let s := setEvents s (fun prevEvents => prevEvents ++ allEvents) in
    let s :=
      if (0 <? length allEvents)%nat then
        match last allEvents with
        | Some lastEvent =>
            if idParses lastEvent then set_lastEventRef s (Some lastEvent)
            else s
        | None => s
        end
      else s in
    let s := foldl (fun s event => call s (handleAssistantMessage event))
                   s allEvents in
    let s := setReplayStatus s COMPLETED in
    set_processingQueueRef s false.

Definition handleMessage (isShareRoute : bool) (event : Obj) (s : State)
  : State :=
  let s := if isOpenHandsEvent (JObj event) && isMessageAction event
           then call s rate_record else s in
  if isShareRoute then
    let s := set_messageQueueRef s (messageQueueRef s ++ [event]) in
    processMessageQueue s
  else
    let s := setEvents s (fun prevEvents => prevEvents ++ [event]) in
    let s := if idParses event then set_lastEventRef s (Some event) else s in
    call s (handleAssistantMessage event).

Definition handleError (isShareRoute : bool) (data : JsVal) (s : State)
  : State :=
  let s := setStatus s DISCONNECTED in
  let s := updateStatusWhenErrorMessagePresent data s in
  if isObject data && inv "message" data && isString (getv data "message")
     && isShareRoute
  then
    let errorMessage := getv data "message" in
    if eq_str errorMessage "Conversation not published"
       || eq_str errorMessage "Conversation not found"
    then
      let s := call s (displayErrorToast "Conversation not published") in
      set_navigateTimers s (S (navigateTimers s))
    else s
  else s.

(** The callback given to [setTimeout] by [handleError]. *)
Definition fireNavigateTimer (s : State) : option State :=
  match navigateTimers s with
  | O => None
  | S n => Some (call (set_navigateTimers s n) (navigate "/"))
  end.

(** The body of the connection effect, run at mount and whenever
    [conversationId], [jwt] or [isShareRoute] changes; [None] is the thrown
    [Error("No conversation ID provided")]. *)
Definition connectEffect (conversationId : string) (jwt : JsVal)
    (isShareRoute : bool) (url : string) (s : State) : option State :=
  if negb (truthy (JStr conversationId)) then None
  else
    let s := set_shouldProcessMessagesRef s true in
    let s := match sioRef s with
             | Some _ =>
                 let s := detach s in
                 let s := closeHeld s in
                 set_sioRef s None
             | None => s
             end in
    let s := set_lastEventRef s None in
    let s := set_messageQueueRef s [] in
    let s := set_processingQueueRef s false in
    let q : Obj :=
      {[ "latest_event_id" := JNum (-1);
         "conversation_id" := JStr conversationId;
         "auth" := jwt ]} in
    let q := if isShareRoute then <["mode" := JStr "shared"]> q else q in
    let s := if isShareRoute then setReplayStatus s IN_PROGRESS else s in
    let s := call s (io_open url q) in
    let sio := mkSocket url q false [] in
    let s := call s (sio_on "connect") in
    let sio := on "connect" (render s) sio in
    let s := call s (sio_on "oh_event") in
    let sio := on "oh_event" (render s) sio in
    let s := call s (sio_on "connect_error") in
    let sio := on "connect_error" (render s) sio in
    let s := call s (sio_on "connect_failed") in
    let sio := on "connect_failed" (render s) sio in
    let s := call s (sio_on "disconnect") in
    let sio := on "disconnect" (render s) sio in
    Some (set_sioRef s (Some sio)).

(** The cleanup the effect returns. *)
Definition connectEffectCleanup (s : State) : State :=
  set_shouldProcessMessagesRef s false.

(** ** Dropping a socket and opening another, in closed form *)

Definition nonEmpty {A : Type} (l : list A) : bool :=
  match l with [] => false | _ :: _ => true end.

(** The calls [disconnect] and the effect make on the socket they drop. *)
Definition teardownCalls : list Effect :=
  [sio_off "connect"; sio_off "oh_event"; sio_off "connect_error";
   sio_off "connect_failed"; sio_off "disconnect"; sio_disconnect].

(** A socket after the five [sio.off] calls made with the closures of
    [render]. *)
Definition detached (render : nat) (sio : Socket) : Socket :=
  off "disconnect" render
    (off "connect_failed" render
       (off "connect_error" render
          (off "oh_event" render (off "connect" render sio)))).

(** Whether closing the socket held runs [handleDisconnect]: the socket is
    connected and a [disconnect] listener is left on it after the [sio.off]
    calls of the current render. *)
Definition closingSignals (s : State) : bool :=
  match sioRef s with
  | Some sio =>
      connected sio
      && nonEmpty (listening "disconnect" (detached (render s) sio))
  | None => false
  end.

(** Whether the socket held is connected. *)
Definition heldConnected (s : State) : bool :=
  match sioRef s with Some sio => connected sio | None => false end.

(** The five listeners attached in [render]. *)
Definition handlers (render : nat) : list (string * nat) :=
  [("connect", render); ("oh_event", render); ("connect_error", render);
   ("connect_failed", render); ("disconnect", render)].

(** The socket the effect creates, and the calls that create it. *)
Definition freshSocket (url : string) (q : Obj) (render : nat) : Socket :=
  mkSocket url q false (handlers render).

Definition effectQuery (conversationId : string) (jwt : JsVal)
    (isShareRoute : bool) : Obj :=
  let q : Obj :=
    {[ "latest_event_id" := JNum (-1);
       "conversation_id" := JStr conversationId;
       "auth" := jwt ]} in
  if isShareRoute then <["mode" := JStr "shared"]> q else q.

Definition openCalls (url : string) (q : Obj) : list Effect :=
  [io_open url q; sio_on "connect"; sio_on "oh_event";
   sio_on "connect_error"; sio_on "connect_failed"; sio_on "disconnect"].

(** The socket held keeps the five listeners it was given when the effect
    created it, closures of that render. *)
Definition listeners_inv (s : State) : Prop :=
  forall sio, sioRef s = Some sio ->
    exists r, r <= render s /\ listeners sio = handlers r.

(** The state a run of the effect leaves, component by component. *)
Definition effectResult (conversationId : string) (jwt : JsVal)
    (isShareRoute : bool) (url : string) (s : State) : State :=
  {| sioRef :=
       Some (freshSocket url (effectQuery conversationId jwt isShareRoute)
               (render s));
     status := if closingSignals s then DISCONNECTED else status s;
     events := events s;
     replayStatus := if isShareRoute then IN_PROGRESS else replayStatus s;
     lastEventRef := None;
     messageQueueRef := [];
     processingQueueRef := false;
     shouldProcessMessagesRef := true;
     replayTimers := replayTimers s;
     navigateTimers := navigateTimers s;
     trace :=
       trace s
       ++ match sioRef s with Some _ => teardownCalls | None => [] end
       ++ openCalls url (effectQuery conversationId jwt isShareRoute);
     render := render s |}.

(** ** What the collaborators have seen *)

(** A run of several calls into collaborators. *)
Definition calls (s : State) (es : list Effect) : State :=
  {| sioRef := sioRef s; status := status s; events := events s;
     replayStatus := replayStatus s; lastEventRef := lastEventRef s;
     messageQueueRef := messageQueueRef s;
     processingQueueRef := processingQueueRef s;
     shouldProcessMessagesRef := shouldProcessMessagesRef s;
     replayTimers := replayTimers s; navigateTimers := navigateTimers s;
     trace := trace s ++ es; render := render s |}.

(** What the external consumer [handleAssistantMessage] has been handed. *)
Definition consumed (e : Effect) : option Obj :=
  match e with handleAssistantMessage event => Some event | _ => None end.

Definition delivered (s : State) : list Obj := omap consumed (trace s).

(** What has been handed to the socket for transmission. *)
Definition emitted (e : Effect) : option (string * Obj) :=
  match e with sio_emit name event => Some (name, event) | _ => None end.

Definition transmitted (s : State) : list (string * Obj) :=
  omap emitted (trace s).

(** How many arrivals the Rate Monitor has been told of. *)
Definition rateRecords (s : State) : nat :=
  length (List.filter
            (fun x => match x with rate_record => true | _ => false end)
            (trace s)).

(** ** Runs of the provider *)

(** Frames arriving one after the other on the socket's [oh_event]. *)
Definition receive (isShareRoute : bool) (frames : list Obj) (s : State)
  : State :=
  foldl (fun s event => handleMessage isShareRoute event s) s frames.

(** The frames that pass the structural check. *)
Definition validated (frames : list Obj) : list Obj :=
  List.filter (fun event => isOpenHandsEvent (JObj event)) frames.

(** Replay timers expiring one after the other until none is pending, with
    no other callback in between. *)
Fixpoint fireReplayTimers (fuel : nat) (s : State) : State :=
  match fuel with
  | O => s
  | S fuel =>
      match fireReplayTimer s with
      | Some s' => fireReplayTimers fuel s'
      | None => s
      end
  end.

(** Every expiry either consumes a pending timer or trades it for a queued
    event, so in a live session this many steps leave no timer pending
    ([runToCompletion_drains]). *)
Definition runToCompletion (s : State) : State :=
  fireReplayTimers (replayTimers s + length (messageQueueRef s)) s.

(** What socket.io does to the socket before it emits [connect] ([b] true)
    or [disconnect] ([b] false). *)
Definition socketConnected (b : bool) (s : State) : State :=
  set_sioRef s ((fun sio => set_connected sio b) <$> sioRef s).

(** Everything that can happen to a mounted provider: a call through the
    facade, a signal of the socket, an expiring timer, a run of the
    connection effect or of its cleanup, a render.  The handlers attached to
    a socket are closures of one render, so each signal carries the
    [isShareRoute] its handler closed over. *)
Inductive Action :=
| Call_send (event : Obj)
| Call_disconnect
| Call_skipToResults
| Call_resetReplay
| On_connect
| On_oh_event (isShareRoute : bool) (event : Obj)
| On_connect_error (isShareRoute : bool) (data : JsVal)
| On_disconnect (data : JsVal)
| Timer_replay
| Timer_navigate
| Effect_run (conversationId : string) (jwt : JsVal) (isShareRoute : bool)
             (url : string)
| Effect_cleanup
| Rerender.

(** [None] when the action cannot happen in [s] (no such timer is pending)
    or throws (the effect without a conversation id).  The effect runs in a
    render of its own, so with closures that no socket has had attached. *)
Definition step (a : Action) (s : State) : option State :=
  match a with
  | Call_send event => Some (send event s)
  | Call_disconnect => Some (disconnect s)
  | Call_skipToResults => Some (skipToResults s)
  | Call_resetReplay => Some (resetReplay s)
  | On_connect => Some (handleConnect (socketConnected true s))
  | On_oh_event isShareRoute event => Some (handleMessage isShareRoute event s)
  | On_connect_error isShareRoute data => Some (handleError isShareRoute data s)
  | On_disconnect data =>
      Some (handleDisconnect data (socketConnected false s))
  | Timer_replay => fireReplayTimer s
  | Timer_navigate => fireNavigateTimer s
  | Effect_run conversationId jwt isShareRoute url =>
      connectEffect conversationId jwt isShareRoute url (rerender s)
  | Effect_cleanup => Some (connectEffectCleanup s)
  | Rerender => Some (rerender s)
  end.

Fixpoint run (actions : list Action) (s : State) : option State :=
  match actions with
  | [] => Some s
  | a :: actions => step a s ≫= run actions
  end.

(** The states a provider can be in, from its mount on. *)
Inductive reachable : State -> Prop :=
| reachable_mount : reachable initialState
| reachable_step (a : Action) (s s' : State) :
    reachable s -> step a s = Some s' -> reachable s'.

(** The processing flag is raised only while a replay timer is pending, and
    in a live session a non-empty queue has its delivery under way. *)
Definition scheduler_inv (s : State) : Prop :=
  (processingQueueRef s = true -> 0 < replayTimers s) /\
  (shouldProcessMessagesRef s = true -> messageQueueRef s <> [] ->
   processingQueueRef s = true).

(** No change that the facade shows: the log, the replay state, the queue
    and the resume cursor. *)
Definition session_unchanged (s s' : State) : Prop :=
  events s' = events s /\
  replayStatus s' = replayStatus s /\
  messageQueueRef s' = messageQueueRef s /\
  lastDeliveredId s' = lastDeliveredId s.

(** ** Sample frames, payloads and sessions *)

Definition frame (id : JsVal) (source type message timestamp : string) : Obj :=
  {[ "id" := id; "source" := JStr source; "type" := JStr type;
     "message" := JStr message; "timestamp" := JStr timestamp ]}.

Definition frame1 : Obj := frame (JNum 1) "user" "message" "hello" "t1".
Definition frame2 : Obj := frame (JNum 2) "agent" "message" "hi" "t2".
Definition frame3 : Obj := frame (JNum 3) "agent" "action" "run" "t3".

(** A frame with no [timestamp]. *)
Definition frameNoTimestamp : Obj :=
  {[ "id" := JNum 4; "source" := JStr "agent"; "type" := JStr "message";
     "message" := JStr "late" ]}.

(** A frame with no [type]. *)
Definition frameNoType : Obj :=
  {[ "id" := JNum 5; "source" := JStr "agent"; "message" := JStr "m";
     "timestamp" := JStr "t5" ]}.

(** A frame that passes the check and whose [id] is no number. *)
Definition frameOddId : Obj := frame (JStr "abc") "agent" "message" "x" "t6".

(** An error payload the classifier suppresses. *)
Definition timeoutPayload : JsVal := JObj {[ "message" := JStr "timeout" ]}.

(** A domain error with a message id. *)
Definition domainPayload : JsVal :=
  JObj {[ "message" := JStr "Conversation not found";
          "data" := JObj {[ "msg_id" := JStr "m42" ]} ]}.

(** The state after a history of actions since the mount. *)
Definition session (actions : list Action) : State :=
  default initialState (run actions initialState).

(** A provider that has run its effect and is waiting for [connect]. *)
Definition connecting : list Action :=
  [Effect_run "c1" (JStr "jwt") false "host"].

(** A connected live session that has received two frames. *)
Definition liveTwo : list Action :=
  [Effect_run "c1" (JStr "jwt") false "host"; On_connect;
   On_oh_event false frame1; On_oh_event false frame2].

(** A share-route session that has received three frames: the first is
    delivered, the others wait for the timer. *)
Definition replayThree : list Action :=
  [Effect_run "c1" (JStr "jwt") true "host"; On_connect;
   On_oh_event true frame1; On_oh_event true frame2;
   On_oh_event true frame3].

(** The same after the replay has run out. *)
Definition replayDone : list Action :=
  replayThree ++ [Timer_replay; Timer_replay; Timer_replay].

(** The same session torn down (the cleanup of the connection effect has
    run) while the timer for [frame2] is pending. *)
Definition tornDown : State := connectEffectCleanup (session replayThree).

(** Two frames of another conversation. *)
Definition frame11 : Obj := frame (JNum 11) "agent" "message" "new" "t11".
Definition frame12 : Obj := frame (JNum 12) "agent" "message" "newer" "t12".

(** The share-route session of three frames whose conversation changes
    while the timer for [frame2] is pending: the cleanup runs, the effect
    runs for the new conversation, and two of its frames arrive. *)
Definition staleHistory : list Action :=
  replayThree
  ++ [Effect_cleanup; Effect_run "c2" (JStr "jwt") true "host";
      On_oh_event true frame11; On_oh_event true frame12].

(** ** What a history leaves behind *)

(** The frame an action brings, if it is an arrival. *)
Definition arrival (a : Action) : list Obj :=
  match a with On_oh_event _ event => [event] | _ => [] end.

(** The frames of a history, in arrival order. *)
Definition arrivals (actions : list Action) : list Obj :=
  concat (map arrival actions).

(** The events the provider holds: logged, or waiting in the queue. *)
Definition pipeline (s : State) : list Obj := events s ++ messageQueueRef s.

(** The actions that neither rewind the replay nor start a session afresh,
    arrivals being those of the share route. *)
Definition keepsPipeline (a : Action) : bool :=
  match a with
  | Call_resetReplay | Effect_run _ _ _ _ | On_oh_event false _ => false
  | _ => true
  end.

Definition isResetReplay (a : Action) : bool :=
  match a with Call_resetReplay => true | _ => false end.

Definition isSkipToResults (a : Action) : bool :=
  match a with Call_skipToResults => true | _ => false end.

Definition isTimerReplay (a : Action) : bool :=
  match a with Timer_replay => true | _ => false end.

Definition isTimerNavigate (a : Action) : bool :=
  match a with Timer_navigate => true | _ => false end.

(** The signals of the socket. *)
Definition socketSignal (a : Action) : bool :=
  match a with
  | On_connect | On_oh_event _ _ | On_connect_error _ _ | On_disconnect _ =>
      true
  | _ => false
  end.

(** A step of a provider whose socket signals come from the socket it
    holds: with no socket held no signal arrives. *)
Definition stepMounted (a : Action) (s : State) : option State :=
  match sioRef s with
  | None => if socketSignal a then None else step a s
  | Some _ => step a s
  end.

Fixpoint runMounted (actions : list Action) (s : State) : option State :=
  match actions with
  | [] => Some s
  | a :: actions => stepMounted a s ≫= runMounted actions
  end.

Inductive mounted : State -> Prop :=
| mounted_mount : mounted initialState
| mounted_step (a : Action) (s s' : State) :
    mounted s -> stepMounted a s = Some s' -> mounted s'.

(** [isDisabled] of the chat box in the chat interface, the comparisons of
    the agent state taken as given. *)
Definition chatBoxDisabled (loading awaitingConfirmation : bool)
    (st : WsClientProviderStatus) : bool :=
  loading || awaitingConfirmation ||
  match st with DISCONNECTED => true | CONNECTED => false end.

(** Sockets created by [io] and sockets closed by [sio.disconnect]. *)
Definition opened (s : State) : nat :=
  length (List.filter
            (fun x => match x with io_open _ _ => true | _ => false end)
            (trace s)).

Definition closed (s : State) : nat :=
  length (List.filter
            (fun x => match x with sio_disconnect => true | _ => false end)
            (trace s)).

(** The toasts shown, the chat errors reported and the navigations made. *)
Definition toast (e : Effect) : option string :=
  match e with displayErrorToast msg => Some msg | _ => None end.

Definition toasts (s : State) : list string := omap toast (trace s).

Definition chatError (e : Effect) : option string :=
  match e with showChatError message _ _ _ => Some message | _ => None end.

Definition chatErrors (s : State) : list string := omap chatError (trace s).

Definition navigation (e : Effect) : option string :=
  match e with navigate path => Some path | _ => None end.

Definition navigations (s : State) : list string := omap navigation (trace s).

(** The message of an error payload, when it is an object carrying a string
    [message]. *)
Definition errorMessage (data : JsVal) : option string :=
  match data with
  | JObj o => match o !! "message" with Some (JStr m) => Some m | _ => None end
  | _ => None
  end.

(** The resume cursor is an event that was handed to the consumer and whose
    [id] parses; the [latest_event_id] of the held socket is the [-1] of the
    effect, or was read off such a cursor, or off no cursor at all. *)
Definition cursor_inv (s : State) : Prop :=
  (forall e, lastEventRef s = Some e ->
             idParses e = true /\ e ∈ delivered s) /\
  (forall sio, sioRef s = Some sio ->
     query sio !! "latest_event_id" = Some (JNum (-1)) \/
     query sio !! "latest_event_id" = Some JUndefined \/
     exists e, e ∈ delivered s /\ idParses e = true /\
               query sio !! "latest_event_id" = Some (get e "id")).

(** Whether a history can be run, or a step taken, at all. *)
Definition succeeds {A : Type} (o : option A) : bool :=
  match o with Some _ => true | None => false end.

(** A share-route session that has just connected, and a history on it that
    interleaves arrivals, a timer and [skipToResults]. *)
Definition shareStart : State :=
  session [Effect_run "c1" (JStr "jwt") true "host"; On_connect].

Definition interleaved : list Action :=
  [On_oh_event true frame1; On_oh_event true frame2; Timer_replay;
   On_oh_event true frameNoTimestamp; Call_skipToResults;
   On_oh_event true frame3; On_disconnect timeoutPayload].

Definition afterInterleaved : State :=
  default initialState (run interleaved shareStart).

(** The share-route session of three frames after its timer has expired
    once. *)
Definition afterExpiry : State :=
  default initialState (step Timer_replay (session replayThree)).

(** The sockets held: one or none. *)
Definition held (s : State) : nat :=
  match sioRef s with Some _ => 1 | None => 0 end.

(** A live session of two frames whose conversation then changes: the
    cleanup of the effect runs, then the effect again. *)
Definition reconnecting : list Action :=
  liveTwo ++ [Effect_cleanup; Effect_run "c2" (JStr "jwt") true "host"].

Definition reconnected : State :=
  default initialState (run reconnecting initialState).

(** The live session of two frames, its signals coming from the socket
    held. *)
Definition mountedTwo : State :=
  default initialState (runMounted liveTwo initialState).

(** A frame that arrives on the share route after the replay has run
    out. *)
Definition lateArrival : State :=
  default initialState
    (step (On_oh_event true frameNoType) (session replayDone)).

(** The new session of [staleHistory] as the effect leaves it. *)
Definition staleRestarted : State :=
  default initialState
    (step (Effect_run "c2" (JStr "jwt") true "host")
       (connectEffectCleanup (session replayThree))).

(** ** The file shown first by the chat interface *)

(** [s.includes(sub)] *)
Fixpoint includes (sub s : string) : bool :=
  String.prefix sub s ||
  match s with
  | String _ r => includes sub r
  | EmptyString => false
  end.

Record Buckets := mkBuckets {
  htmlFiles : list string;
  txtFiles : list string;
  mdFiles : list string
}.

(** The body of [files.map]: the file is pushed on the first bucket whose
    extension it includes. *)
Definition bucket (b : Buckets) (e : string) : Buckets :=
  if includes ".html" e then
    mkBuckets (htmlFiles b ++ [e]) (txtFiles b) (mdFiles b)
  else if includes ".md" e then
    mkBuckets (htmlFiles b) (txtFiles b) (mdFiles b ++ [e])
  else if includes ".txt" e then
    mkBuckets (htmlFiles b) (txtFiles b ++ [e]) (mdFiles b)
  else b.

(** [a || b] on values that are a string or [undefined]. *)
Definition orElse (a b : option string) : option string :=
  match a with
  | Some x => if String.eqb x "" then b else Some x
  | None => b
  end.

(** The path dispatched to [setCurrentPathViewed] by the effect on [files]
    ([None]: nothing is dispatched); [files] is [None] while the list is
    not loaded. *)
Definition priorityFile (files : option (list string)) : option string :=
  match files with
  | Some (f :: l) =>
      let b := foldl bucket (mkBuckets [] [] []) (f :: l) in
      orElse (orElse (orElse (head (mdFiles b)) (head (txtFiles b)))
                     (head (htmlFiles b)))
             None
  | _ => None
  end.

Definition isHtml (e : string) : bool := includes ".html" e.
Definition isMd (e : string) : bool :=
  negb (includes ".html" e) && includes ".md" e.
Definition isTxt (e : string) : bool :=
  negb (includes ".html" e) && negb (includes ".md" e) && includes ".txt" e.

(** ** Proof tactics *)

(** Closed equations are checked by evaluating both sides. *)
Ltac vm_refl :=
  lazymatch goal with
  | |- ?l = ?r => vm_cast_no_check (@eq_refl _ r)
  end.

Ltac vm_conj := repeat apply conj; vm_refl.

(** Projections of an updated state, and what a longer trace hands to the
    consumer and to the socket. *)
Ltac simpl_state :=
  cbn; unfold delivered, transmitted; cbn;
  rewrite ?omap_app; cbn; rewrite ?app_nil_r.

Ltac case_cond :=
  match goal with
  | |- context [if ?c then _ else _] => destruct c eqn:?
  | |- context [match ?x with Some _ => _ | None => _ end] => destruct x eqn:?
  | |- context [match ?x with [] => _ | _ :: _ => _ end] => destruct x eqn:?
  end.

Ltac inv_solve :=
  unfold scheduler_inv in *; cbn in *;
  intuition (try lia; try congruence; try discriminate).

(** Replaces every call of the classifier by the report it makes, given the
    lemma that says so. *)
Ltac classifier_calls_by lem :=
  repeat match goal with
  | |- context [updateStatusWhenErrorMessagePresent ?d ?t] =>
      let es := fresh "es" in
      destruct (lem d t) as (es & -> & [-> | (? & ? & ? & ->)])
  end.

(** The cursor is as it was, or is an event just delivered. *)
Ltac cursor_same := left; reflexivity.

Ltac cursor_new Hid :=
  right; right; eexists; split; [reflexivity|];
  split; [exact Hid | set_solver].

(** The status is not [CONNECTED], or it and the socket are as [Hinv] has
    them. *)
Ltac status_keep Hinv :=
  cbn;
  let H := fresh in
  intros H;
  first [discriminate H | specialize (Hinv H); congruence | congruence].

(** A list that has grown by some suffix, possibly empty. *)
Ltac grow :=
  first [exists []; rewrite ?app_nil_r; reflexivity | eexists; reflexivity].

(** ** Basic facts *)

Lemma nonempty_length {A : Type} (l : list A) (n : nat) :
  length l = S n -> l <> [].
Proof. intros H ->. discriminate. Qed.

Lemma delivered_call s e :
  delivered (call s e) = delivered s ++ from_option (fun x => [x]) [] (consumed e).
Proof.
  unfold delivered; cbn. rewrite omap_app; cbn.
  destruct (consumed e); reflexivity.
Qed.

Lemma last_filter_cons (f : Obj -> bool) (e : Obj) (l : list Obj) :
  last (List.filter f (e :: l)) =
  match last (List.filter f l) with
  | Some x => Some x
  | None => if f e then Some e else None
  end.
Proof.
  cbn. destruct (f e).
  - rewrite last_cons. reflexivity.
  - destruct (last (List.filter f l)); reflexivity.
Qed.

(** *** An integer always parses *)

Lemma pretty_N_char_digit (x : N) : is_Some (digitValue (pretty_N_char x)).
Proof.
  unfold pretty_N_char. repeat case_match; vm_compute; eauto.
Qed.

Lemma pretty_N_go_digit (x : N) :
  forall s, (0 < x)%N \/ startsWithDigit s -> startsWithDigit (pretty_N_go x s).
Proof.
  induction (N.lt_wf_0 x) as [x _ IH]; intros s Hs.
  destruct (decide (x = 0)%N) as [->|Hx].
  - rewrite pretty_N_go_0. destruct Hs as [?|?]; [lia|assumption].
  - rewrite pretty_N_go_step by lia.
    apply IH.
    + apply N.div_lt; lia.
    + right. cbn. apply pretty_N_char_digit.
Qed.

Lemma pretty_N_digit (x : N) : startsWithDigit (pretty x).
Proof.
  unfold pretty, pretty_N. case_decide.
  - vm_compute. eauto.
  - apply pretty_N_go_digit. left. lia.
Qed.

Lemma digits_some (a : Z) (r : string) : is_Some (digits (Some a) r).
Proof.
  revert a. induction r as [|c r IH]; intros a; cbn; [eauto|].
  destruct (digitValue c); [apply IH | eauto].
Qed.

Lemma digits_startsWithDigit (s : string) :
  startsWithDigit s -> is_Some (digits None s).
Proof.
  destruct s as [|c r]; cbn; [tauto|]. intros [d ->]. apply digits_some.
Qed.

(** A string that begins with a byte below 128 that is no white space
    begins with no white space at all. *)
Lemma skipWhiteSpace_ascii (c : ascii) (r : string) :
  isWhiteSpace c = false -> nat_of_ascii c < 128 ->
  skipWhiteSpace (String c r) = String c r.
Proof.
  intros Hw Hc. cbn [skipWhiteSpace]. rewrite Hw.
  assert (forall n, 128 <= n -> byte c n = false) as Hb
      by (intros n Hn; apply Nat.eqb_neq; lia).
  destruct r as [|d r1]; [reflexivity|].
  unfold isWhiteSpace2. rewrite (Hb 194) by lia. cbn [andb].
  destruct r1 as [|e r2]; [reflexivity|].
  unfold isWhiteSpace3.
  rewrite (Hb 225), (Hb 226), (Hb 227), (Hb 239) by lia. reflexivity.
Qed.

Lemma digit_not_space_sign (c : ascii) :
  is_Some (digitValue c) ->
  isWhiteSpace c = false /\ nat_of_ascii c < 128 /\
  c <> "-"%char /\ c <> "+"%char.
Proof.
  unfold digitValue, isWhiteSpace. intros [d Hd].
  remember (nat_of_ascii c) as k eqn:Hk.
  destruct (48 <=? k)%nat eqn:H1; [|discriminate].
  destruct (k <=? 57)%nat eqn:H2; [|discriminate].
  clear Hd. apply Nat.leb_le in H1, H2.
  split; [|split; [lia|split]].
  - apply orb_false_iff. split.
    + apply andb_false_iff. right. apply Nat.leb_gt. lia.
    + apply Nat.eqb_neq. lia.
  - intros ->. vm_compute in Hk. lia.
  - intros ->. vm_compute in Hk. lia.
Qed.

Lemma parseInt_startsWithDigit (s : string) :
  startsWithDigit s -> is_Some (parseInt (JStr s)).
Proof.
  intros Hs. unfold parseInt. cbn [toString].
  destruct s as [|c r]; [destruct Hs|].
  destruct (digit_not_space_sign c Hs) as (Hw & Hc & Hm & Hp).
  rewrite (skipWhiteSpace_ascii c r Hw Hc).
  apply Ascii.eqb_neq in Hm, Hp. rewrite Hm, Hp.
  apply digits_startsWithDigit. exact Hs.
Qed.

Lemma parseInt_number (n : Z) : is_Some (parseInt (JNum n)).
Proof.
  destruct n as [|p|p].
  - vm_compute. eauto.
  - change (parseInt (JNum (Z.pos p)))
      with (parseInt (JStr (pretty (Npos p)))).
    apply parseInt_startsWithDigit, pretty_N_digit.
  - unfold parseInt. cbn [toString].
    change (pretty (Z.neg p)) with (String "-" (pretty (Npos p))).
    rewrite skipWhiteSpace_ascii by (vm_compute; first [reflexivity | lia]).
    replace (Ascii.eqb "-" "-") with true by vm_refl.
    destruct (digits_startsWithDigit _ (pretty_N_digit (Npos p))) as [z ->].
    cbn. eauto.
Qed.

(** White space before the digits is skipped, beyond ASCII too: here U+00A0,
    and U+FEFF followed by a space. *)
Example parseInt_skips_white_space :
  parseInt (JStr (String (ascii_of_nat 194)
                    (String (ascii_of_nat 160) "42"))) = Some 42%Z /\
  parseInt (JStr (String (ascii_of_nat 239)
                    (String (ascii_of_nat 187)
                       (String (ascii_of_nat 191) " -7px")))) = Some (-7)%Z /\
  parseInt (JStr (String (ascii_of_nat 194) "42")) = None.
Proof. vm_conj. Qed.

Lemma number_id_parses (e : Obj) (n : Z) :
  e !! "id" = Some (JNum n) -> idParses e = true.
Proof.
  intros He. unfold idParses, get. rewrite He. cbn.
  destruct (parseInt_number n) as [z ->]. reflexivity.
Qed.

(** *** Live delivery *)

Lemma isOpenHandsEvent_spec (v : JsVal) :
  isOpenHandsEvent v = true <->
  exists o : Obj,
    v = JObj o /\ is_Some (o !! "id") /\ is_Some (o !! "source") /\
    is_Some (o !! "message") /\ is_Some (o !! "timestamp").
Proof.
  unfold isOpenHandsEvent. split.
  - destruct v; cbn; try discriminate.
    unfold has. rewrite !andb_true_iff, !bool_decide_eq_true.
    intros [[[? ?] ?] ?]. eauto 10.
  - intros (o & -> & ? & ? & ? & ?). cbn. unfold has.
    rewrite !andb_true_iff, !bool_decide_eq_true. auto.
Qed.

Lemma handleMessage_live (e : Obj) (s : State) :
  let s' := handleMessage false e s in
  events s' = events s ++ [e] /\
  lastEventRef s' = (if idParses e then Some e else lastEventRef s) /\
  delivered s' = delivered s ++ [e] /\
  messageQueueRef s' = messageQueueRef s /\
  replayStatus s' = replayStatus s /\
  replayTimers s' = replayTimers s.
Proof.
  unfold handleMessage.
  destruct (isOpenHandsEvent (JObj e) && isMessageAction e), (idParses e);
    cbn; rewrite ?delivered_call; cbn; unfold delivered; cbn;
    rewrite ?omap_app; cbn; rewrite ?app_nil_r; repeat split.
Qed.

Lemma receive_live (frames : list Obj) (s : State) :
  let s' := receive false frames s in
  events s' = events s ++ frames /\
  lastEventRef s' =
    match last (List.filter idParses frames) with
    | Some e => Some e
    | None => lastEventRef s
    end /\
  delivered s' = delivered s ++ frames /\
  messageQueueRef s' = messageQueueRef s /\
  replayStatus s' = replayStatus s /\
  replayTimers s' = replayTimers s.
Proof.
  revert s. induction frames as [|e frames IH]; intros s.
  - cbn. rewrite !app_nil_r. repeat split.
  - unfold receive in *. cbn [foldl].
    destruct (IH (handleMessage false e s)) as (He & Hl & Hd & Hq & Hr & Ht).
    destruct (handleMessage_live e s) as (He' & Hl' & Hd' & Hq' & Hr' & Ht').
    cbv zeta in *.
    rewrite He, Hl, Hd, Hq, Hr, Ht, He', Hl', Hd', Hq', Hr', Ht'.
    rewrite last_filter_cons, <- !app_assoc. cbn.
    destruct (last (List.filter idParses frames)), (idParses e);
      repeat split.
Qed.

Example live_three_frames :
  let s := receive false [frame1; frame2; frame3] initialState in
  events s = [frame1; frame2; frame3] /\ lastDeliveredId s = JNum 3 /\
  length (List.filter (fun e => match e with rate_record => true | _ => false end)
                      (trace s)) = 2.
Proof. vm_conj. Qed.

(** *** The timer loop *)

(** What one expiry does while the session is alive: with an empty queue the
    replay is marked completed, otherwise the head of the queue is delivered
    and the next timer is set. *)
Lemma fireReplayTimer_alive (s : State) (n : nat) :
  shouldProcessMessagesRef s = true ->
  replayTimers s = S n ->
  exists s',
    fireReplayTimer s = Some s' /\
    shouldProcessMessagesRef s' = true /\
    sioRef s' = sioRef s /\ status s' = status s /\
    match messageQueueRef s with
    | [] =>
        events s' = events s /\ messageQueueRef s' = [] /\
        replayTimers s' = n /\ replayStatus s' = COMPLETED /\
        processingQueueRef s' = false /\ delivered s' = delivered s /\
        lastEventRef s' = lastEventRef s
    | e :: rest =>
        events s' = events s ++ [e] /\ messageQueueRef s' = rest /\
        replayTimers s' = S n /\ replayStatus s' = replayStatus s /\
        processingQueueRef s' = true /\ delivered s' = delivered s ++ [e] /\
        lastEventRef s' = (if idParses e then Some e else lastEventRef s)
    end.
Proof.
  intros Hp Ht.
  destruct s as [sio st ev rs le q pr sp rt nt tr]; cbn in *; subst.
  eexists; split; [reflexivity|].
  unfold replayTimerCallback, processMessageQueue.
  destruct q as [|e rest]; cbn.
  - repeat split.
  - destruct (idParses e); simpl_state; repeat split.
Qed.

(** With fuel for every pending timer and every queued event, the loop of a
    live session stops with no timer pending, the queue delivered in order
    behind the events already logged. *)
Lemma fireReplayTimers_drains (fuel : nat) :
  forall s : State,
    shouldProcessMessagesRef s = true ->
    replayTimers s + length (messageQueueRef s) <= fuel ->
    0 < replayTimers s \/ messageQueueRef s = [] ->
    let s' := fireReplayTimers fuel s in
    events s' = events s ++ messageQueueRef s /\
    delivered s' = delivered s ++ messageQueueRef s /\
    messageQueueRef s' = [] /\
    replayTimers s' = 0 /\
    (0 < replayTimers s \/ replayStatus s = COMPLETED ->
     replayStatus s' = COMPLETED) /\
    (0 < replayTimers s \/ processingQueueRef s = false ->
     processingQueueRef s' = false) /\
    lastEventRef s' =
      match last (List.filter idParses (messageQueueRef s)) with
      | Some e => Some e
      | None => lastEventRef s
      end /\
    sioRef s' = sioRef s /\ status s' = status s.
Proof.
  induction fuel as [|fuel IH]; intros s Hp Hfuel Hrun; cbv zeta.
  - assert (replayTimers s = 0) as Ht by lia.
    assert (messageQueueRef s = []) as Hq
        by (destruct (messageQueueRef s); [reflexivity | cbn in Hfuel; lia]).
    cbn. rewrite Hq, Ht, !app_nil_r. cbn.
    repeat split; intros [?|?]; auto; lia.
  - cbn [fireReplayTimers].
    destruct (replayTimers s) as [|n] eqn:Ht.
    + unfold fireReplayTimer. rewrite Ht.
      destruct Hrun as [?|Hq]; [lia|].
      rewrite Hq, Ht, !app_nil_r. cbn.
      repeat split; intros [?|?]; auto; lia.
    + destruct (fireReplayTimer_alive s n Hp Ht)
        as (s1 & -> & Hp1 & Hsio & Hst & Hstep).
      destruct (messageQueueRef s) as [|e rest] eqn:Hq.
      * destruct Hstep as (He & Hq1 & Ht1 & Hr1 & Hpr1 & Hd1 & Hl1).
        destruct (IH s1 Hp1) as (He' & Hd' & Hq' & Ht' & Hr' & Hpr' & Hl' & ? & ?);
          [rewrite Hq1, Ht1; cbn in *; lia | auto |].
        rewrite He', Hd', Hq', Ht', Hl', Hq1, He, Hd1, Hl1. cbn.
        repeat split; auto; congruence.
      * destruct Hstep as (He & Hq1 & Ht1 & Hr1 & Hpr1 & Hd1 & Hl1).
        destruct (IH s1 Hp1) as (He' & Hd' & Hq' & Ht' & Hr' & Hpr' & Hl' & ? & ?);
          [rewrite Hq1, Ht1; cbn in *; lia | left; lia |].
        rewrite He', Hd', Hq', Ht', Hl', Hq1, He, Hd1, Hl1.
        rewrite last_filter_cons, <- !app_assoc. cbn.
        repeat split; try congruence.
        -- intros _. apply Hr'. left; lia.
        -- intros _. apply Hpr'. left; lia.
        -- destruct (last (List.filter idParses rest)), (idParses e);
             reflexivity.
Qed.

Lemma runToCompletion_drains (s : State) :
  shouldProcessMessagesRef s = true ->
  0 < replayTimers s \/ messageQueueRef s = [] ->
  let s' := runToCompletion s in
  events s' = events s ++ messageQueueRef s /\
  delivered s' = delivered s ++ messageQueueRef s /\
  messageQueueRef s' = [] /\
  replayTimers s' = 0 /\
  (0 < replayTimers s \/ replayStatus s = COMPLETED ->
   replayStatus s' = COMPLETED) /\
  (0 < replayTimers s \/ processingQueueRef s = false ->
   processingQueueRef s' = false) /\
  lastEventRef s' =
    match last (List.filter idParses (messageQueueRef s)) with
    | Some e => Some e
    | None => lastEventRef s
    end /\
  sioRef s' = sioRef s /\ status s' = status s.
Proof.
  intros Hp Hrun. apply fireReplayTimers_drains; auto.
Qed.

(** *** Draining the queue at once *)

Lemma forEach_call (f : Obj -> Effect) (l : list Obj) :
  forall s, foldl (fun s event => call s (f event)) s l = calls s (map f l).
Proof.
  induction l as [|e l IH]; intros s; cbn.
  - destruct s; unfold calls; cbn. rewrite app_nil_r. reflexivity.
  - rewrite IH. unfold calls, call; cbn. rewrite <- app_assoc. reflexivity.
Qed.

Lemma omap_consumed_handle (l : list Obj) :
  omap consumed (map handleAssistantMessage l) = l.
Proof. induction l as [|e l IH]; cbn; [|rewrite IH]; reflexivity. Qed.

Lemma skipToResults_drains (s : State) :
  messageQueueRef s <> [] ->
  let s' := skipToResults s in
  events s' = events s ++ messageQueueRef s /\
  delivered s' = delivered s ++ messageQueueRef s /\
  messageQueueRef s' = [] /\
  replayTimers s' = replayTimers s /\
  replayStatus s' = COMPLETED /\
  processingQueueRef s' = false /\
  lastEventRef s' =
    match last (messageQueueRef s) with
    | Some e => if idParses e then Some e else lastEventRef s
    | None => lastEventRef s
    end /\
  sioRef s' = sioRef s /\ status s' = status s /\
  shouldProcessMessagesRef s' = shouldProcessMessagesRef s.
Proof.
  intros Hq. unfold skipToResults.
  destruct s as [sio st ev rs le q pr sp rt nt tr]; cbn in *.
  destruct q as [|e rest]; [congruence|]. cbn [length Nat.eqb Nat.ltb Nat.leb].
  rewrite forEach_call.
  destruct (last (e :: rest)) as [l|]; [destruct (idParses l)|];
    simpl_state; rewrite ?omap_consumed_handle; repeat split.
Qed.

Lemma skipToResults_empty (s : State) :
  messageQueueRef s = [] -> skipToResults s = s.
Proof. intros Hq. unfold skipToResults. rewrite Hq. reflexivity. Qed.

Lemma calls_nil (s : State) : calls s [] = s.
Proof. destruct s; unfold calls; cbn. rewrite app_nil_r. reflexivity. Qed.

(** The classifier touches nothing but the trace, where it leaves at most
    one report. *)
Lemma updateStatusWhenErrorMessagePresent_calls (data : JsVal) (s : State) :
  exists es, updateStatusWhenErrorMessagePresent data s = calls s es /\
             length es <= 1 /\ omap consumed es = [] /\ omap emitted es = [].
Proof.
  assert (exists es : list Effect, s = calls s es /\ length es <= 1 /\
            omap consumed es = [] /\ omap emitted es = []) as Hnone
      by (exists nil; rewrite calls_nil; cbn; auto).
  unfold updateStatusWhenErrorMessagePresent.
  destruct (isObject data && inv "message" data
            && isString (getv data "message")); [|exact Hnone].
  destruct (getv data "message") as [| | | |m| |]; try exact Hnone.
  destruct (String.eqb m "websocket error" || String.eqb m "timeout");
    [exact Hnone|].
  destruct (inv "data" data && isObject (getv data "data"));
    eexists; (split; [reflexivity|]); cbn; auto.
Qed.

(** *** Dropping the socket held *)

(** Two states with the same components are the same state. *)
Lemma state_ext (s t : State) :
  sioRef s = sioRef t -> status s = status t -> events s = events t ->
  replayStatus s = replayStatus t -> lastEventRef s = lastEventRef t ->
  messageQueueRef s = messageQueueRef t ->
  processingQueueRef s = processingQueueRef t ->
  shouldProcessMessagesRef s = shouldProcessMessagesRef t ->
  replayTimers s = replayTimers t -> navigateTimers s = navigateTimers t ->
  trace s = trace t -> render s = render t -> s = t.
Proof. destruct s, t; cbn; intros; subst; reflexivity. Qed.

(** The [disconnect] that socket.io emits when the client closes a socket
    carries a string: the handler sets the status, writes the cursor into
    the query of that socket and reports nothing. *)
Lemma handleDisconnect_reason (reason : string) (s : State) (sio : Socket) :
  sioRef s = Some sio ->
  handleDisconnect (JStr reason) s
  = set_sioRef (setStatus s DISCONNECTED)
      (Some (set_query sio
               (<["latest_event_id" := lastDeliveredId s]> (query sio)))).
Proof.
  intros H. unfold handleDisconnect. cbn. rewrite H.
  unfold updateStatusWhenErrorMessagePresent, isObject. cbn.
  rewrite andb_false_r. reflexivity.
Qed.

Lemma closing_listeners (reason : string) (l : list (string * nat)) :
  forall (s : State) (sio : Socket),
    sioRef s = Some sio ->
    exists sio',
      foldl (fun s _ => handleDisconnect (JStr reason) s) s l
      = if nonEmpty l then set_sioRef (setStatus s DISCONNECTED) (Some sio')
        else s.
Proof.
  induction l as [|x l IH]; intros s sio Hsio; cbn.
  - exists sio. reflexivity.
  - rewrite (handleDisconnect_reason reason s sio Hsio).
    edestruct IH as (sio' & ->); [reflexivity|].
    destruct l; cbn; eexists; reflexivity.
Qed.

(** What the teardown leaves: the six calls, and the status set by the
    handler that closing the socket ran, if it ran one. *)
Lemma teardown_eq (s : State) (sio : Socket) :
  sioRef s = Some sio ->
  set_sioRef (closeHeld (detach s)) None
  = set_sioRef
      (setStatus (calls s teardownCalls)
         (if closingSignals s then DISCONNECTED else status s)) None.
Proof.
  intros Hsio. unfold closingSignals. rewrite Hsio.
  destruct s as [sio0 st ev rs le q pr sp rt nt tr r]; cbn in Hsio.
  subst sio0. unfold detach, offHeld, closeHeld. cbn.
  fold (detached r sio).
  change (connected (detached r sio)) with (connected sio).
  destruct (connected sio); cbn.
  - match goal with
    | |- context [foldl ?f ?s0 ?l] =>
        destruct (closing_listeners "io client disconnect" l s0
                    (set_connected (detached r sio) false) eq_refl)
          as (sio' & ->)
    end.
    destruct (List.filter _ _);
      apply state_ext; cbn; rewrite <- ?app_assoc; reflexivity.
  - apply state_ext; cbn; rewrite <- ?app_assoc; reflexivity.
Qed.

(** [disconnect] on the whole state. *)
Lemma disconnect_eq (s : State) :
  disconnect s
  = match sioRef s with
    | Some _ =>
        setStatus (set_sioRef (calls s teardownCalls) None) DISCONNECTED
    | None => s
    end.
Proof.
  unfold disconnect. destruct (sioRef s) as [sio|] eqn:Hsio; [|reflexivity].
  cbv zeta. rewrite (teardown_eq s sio Hsio).
  apply state_ext; reflexivity.
Qed.

(** The connection effect on the whole state. *)
Lemma connectEffect_eq (conversationId : string) (jwt : JsVal)
    (isShareRoute : bool) (url : string) (s : State) :
  connectEffect conversationId jwt isShareRoute url s
  = if negb (truthy (JStr conversationId)) then None
    else Some (effectResult conversationId jwt isShareRoute url s).
Proof.
  unfold connectEffect.
  destruct (negb (truthy (JStr conversationId))); [reflexivity|].
  f_equal. cbv zeta.
  change (sioRef (set_shouldProcessMessagesRef s true)) with (sioRef s).
  destruct (sioRef s) as [sio|] eqn:Hsio.
  - rewrite (teardown_eq (set_shouldProcessMessagesRef s true) sio Hsio).
    destruct isShareRoute; apply state_ext; cbn;
      unfold closingSignals; cbn; rewrite ?Hsio, <- ?app_assoc; reflexivity.
  - destruct isShareRoute; apply state_ext; cbn;
      unfold closingSignals; cbn; rewrite ?Hsio, <- ?app_assoc; reflexivity.
Qed.

(** *** The scheduler's invariant *)

Lemma reachable_run (actions : list Action) :
  forall s s', reachable s -> run actions s = Some s' -> reachable s'.
Proof.
  induction actions as [|a actions IH]; intros s s' Hs Hrun; cbn in Hrun.
  - congruence.
  - destruct (step a s) as [s1|] eqn:Hstep; [|discriminate].
    cbn in Hrun. eauto using reachable_step.
Qed.

(** [processMessageQueue] establishes the invariant from its first half. *)
Lemma processMessageQueue_inv (s : State) :
  (processingQueueRef s = true -> 0 < replayTimers s) ->
  scheduler_inv (processMessageQueue s).
Proof.
  intros H. unfold processMessageQueue.
  destruct s as [sio st ev rs le q pr sp rt nt tr]; cbn in *.
  destruct sp, pr, q as [|e rest]; cbn; try destruct (idParses e); inv_solve.
Qed.

Lemma step_scheduler_inv (a : Action) (s s' : State) :
  scheduler_inv s -> step a s = Some s' -> scheduler_inv s'.
Proof.
  intros Hinv Hstep. destruct a; cbn in Hstep.
  - (* send *)
    injection Hstep as <-. unfold send. destruct (sioRef s); exact Hinv.
  - (* disconnect *)
    injection Hstep as <-. rewrite disconnect_eq.
    destruct (sioRef s); exact Hinv.
  - (* skipToResults *)
    injection Hstep as <-.
    destruct (messageQueueRef s) as [|e rest] eqn:Hq.
    + rewrite skipToResults_empty; assumption.
    + destruct (skipToResults_drains s) as (_ & _ & Hq' & _ & _ & Hp & _);
        [congruence|].
      split; intros; congruence.
  - (* resetReplay *)
    injection Hstep as <-. apply processMessageQueue_inv. cbn. discriminate.
  - (* connect *)
    injection Hstep as <-. exact Hinv.
  - (* oh_event *)
    injection Hstep as <-. unfold handleMessage.
    destruct isShareRoute.
    + apply processMessageQueue_inv.
      destruct (isOpenHandsEvent (JObj event) && isMessageAction event);
        cbn; apply Hinv.
    + destruct (isOpenHandsEvent (JObj event) && isMessageAction event),
        (idParses event); exact Hinv.
  - (* connect_error, connect_failed *)
    injection Hstep as <-. unfold handleError.
    destruct (updateStatusWhenErrorMessagePresent_calls data
                (setStatus s DISCONNECTED)) as (es & -> & _).
    repeat case_cond; exact Hinv.
  - (* disconnect signal *)
    injection Hstep as <-. unfold handleDisconnect. cbn.
    destruct (sioRef s); cbn; [|exact Hinv].
    match goal with
    | |- context [updateStatusWhenErrorMessagePresent ?d ?t] =>
        destruct (updateStatusWhenErrorMessagePresent_calls d t)
          as (es & -> & _)
    end.
    exact Hinv.
  - (* replay timer *)
    unfold fireReplayTimer in Hstep.
    destruct (replayTimers s) as [|n] eqn:Ht; [discriminate|].
    injection Hstep as <-. unfold replayTimerCallback. cbn.
    destruct (shouldProcessMessagesRef s) eqn:Hp; cbn.
    + apply processMessageQueue_inv.
      destruct (length (messageQueueRef s) =? 0)%nat; cbn; discriminate.
    + inv_solve.
  - (* navigate timer *)
    unfold fireNavigateTimer in Hstep.
    destruct (navigateTimers s); [discriminate|].
    injection Hstep as <-. exact Hinv.
  - (* effect *)
    rewrite connectEffect_eq in Hstep.
    destruct (negb (truthy (JStr conversationId))); [discriminate|].
    injection Hstep as <-. inv_solve.
  - (* cleanup *)
    injection Hstep as <-. inv_solve.
  - (* render *)
    injection Hstep as <-. exact Hinv.
Qed.

Lemma reachable_scheduler_inv (s : State) : reachable s -> scheduler_inv s.
Proof.
  induction 1 as [|a s s' _ IH Hstep].
  - inv_solve.
  - eauto using step_scheduler_inv.
Qed.

(** In a live session a non-empty queue always has a timer pending. *)
Lemma reachable_timer_pending (s : State) :
  reachable s -> shouldProcessMessagesRef s = true ->
  messageQueueRef s <> [] -> 0 < replayTimers s.
Proof.
  intros Hr Hp Hq. destruct (reachable_scheduler_inv s Hr) as [H1 H2]. auto.
Qed.

(** *** The connection effect *)

Lemma delivered_calls (s : State) (es : list Effect) :
  delivered (calls s es) = delivered s ++ omap consumed es.
Proof. unfold delivered. cbn. apply omap_app. Qed.

(** A run of the effect starts the session afresh, except for the log and
    the timers that are pending; the status changes only when closing the
    old socket runs its [disconnect] listener. *)
Lemma connectEffect_resets (conversationId : string) (jwt : JsVal)
    (isShareRoute : bool) (url : string) (s s1 : State) :
  connectEffect conversationId jwt isShareRoute url s = Some s1 ->
  shouldProcessMessagesRef s1 = true /\
  messageQueueRef s1 = [] /\
  processingQueueRef s1 = false /\
  lastEventRef s1 = None /\
  events s1 = events s /\
  delivered s1 = delivered s /\
  status s1 = (if closingSignals s then DISCONNECTED else status s) /\
  replayTimers s1 = replayTimers s /\
  exists q : Obj,
    sioRef s1 = Some (freshSocket url q (render s)) /\
    q !! "latest_event_id" = Some (JNum (-1)) /\
    q !! "conversation_id" = Some (JStr conversationId) /\
    q !! "mode" = (if isShareRoute then Some (JStr "shared") else None).
Proof.
  rewrite connectEffect_eq.
  destruct (negb (truthy (JStr conversationId))); [discriminate|].
  intros [= <-]. cbn. repeat split.
  - unfold delivered. cbn. rewrite !omap_app.
    destruct (sioRef s); cbn; rewrite app_nil_r; reflexivity.
  - eexists. split; [reflexivity|]. destruct isShareRoute; vm_conj.
Qed.

Lemma session_reachable (actions : list Action) :
  is_Some (run actions initialState) -> reachable (session actions).
Proof.
  intros [s Hs]. unfold session. rewrite Hs. cbn.
  eapply reachable_run; [apply reachable_mount | exact Hs].
Qed.

Example replayThree_state :
  let s := session replayThree in
  events s = [frame1] /\ messageQueueRef s = [frame2; frame3] /\
  replayTimers s = 1 /\ processingQueueRef s = true /\
  replayStatus s = IN_PROGRESS /\ status s = CONNECTED.
Proof. vm_conj. Qed.

Example replayDone_state :
  let s := session replayDone in
  events s = [frame1; frame2; frame3] /\ messageQueueRef s = [] /\
  replayTimers s = 0 /\ processingQueueRef s = false /\
  replayStatus s = COMPLETED /\ lastDeliveredId s = JNum 3.
Proof. vm_conj. Qed.

(** ** C1: live delivery *)

Lemma last_filter_last (f : Obj -> bool) (l : list Obj) (e : Obj) :
  last l = Some e -> f e = true -> last (List.filter f l) = Some e.
Proof.
  intros Hl He. apply last_Some in Hl as [l' ->].
  rewrite List.filter_app. cbn. rewrite He. apply last_snoc.
Qed.

(** C1, as the specification words it, fails on a frame that does not pass
    the structural check: in LIVE mode the frame without [timestamp] is
    logged although it is not among the validated frames. *)
Lemma live_log_keeps_unvalidated_frame :
  events (receive false [frameNoTimestamp] initialState)
  <> validated [frameNoTimestamp].
Proof.
  destruct (receive_live [frameNoTimestamp] initialState) as (-> & _).
  replace (validated [frameNoTimestamp]) with (@nil Obj) by vm_refl.
  discriminate.
Qed.

(** The cursor half of C1 fails too, on frames that all pass the check: the
    last frame's [id] is not taken when [parseInt] reads no number in it. *)
Example live_cursor_skips_odd_id :
  let s := receive false [frame1; frameOddId] initialState in
  validated [frame1; frameOddId] = [frame1; frameOddId] /\
  lastDeliveredId s = JNum 1 /\ get frameOddId "id" = JStr "abc".
Proof. vm_conj. Qed.

(** C1 (amended): in LIVE mode, for every sequence of inbound frames,
    [events] grows by exactly the frames received, in arrival order and
    whether or not they pass [isOpenHandsEvent]; the consumer is handed the
    same frames in the same order; the resume cursor [lastEventRef] is the
    last frame whose [id] [parseInt] reads as a number, and is left as it
    was when there is none.  Hence [events] is the sequence of validated
    frames when all frames pass the check, and [lastDeliveredId] is the [id]
    of the last frame when that [id] parses, as every integer does. *)
Theorem live_frames_logged_in_arrival_order :
  forall (frames : list Obj) (s : State),
    let s' := receive false frames s in
    events s' = events s ++ frames /\
    delivered s' = delivered s ++ frames /\
    lastEventRef s' =
      match last (List.filter idParses frames) with
      | Some e => Some e
      | None => lastEventRef s
      end /\
    (validated frames = frames -> events s' = events s ++ validated frames) /\
    (forall e, last frames = Some e -> idParses e = true ->
               lastDeliveredId s' = get e "id") /\
    (forall e n, last frames = Some e -> e !! "id" = Some (JNum n) ->
                 lastDeliveredId s' = JNum n).
Proof.
  intros frames s s'.
  destruct (receive_live frames s) as (He & Hl & Hd & _).
  fold s' in He, Hl, Hd.
  assert (forall e, last frames = Some e -> idParses e = true ->
                    lastDeliveredId s' = get e "id") as Hcursor.
  { intros e Hlast Hid. unfold lastDeliveredId. rewrite Hl.
    rewrite (last_filter_last idParses frames e Hlast Hid). reflexivity. }
  repeat split; try assumption.
  - intros ->. exact He.
  - intros e n Hlast Hid.
    rewrite (Hcursor e Hlast (number_id_parses e n Hid)).
    unfold get. rewrite Hid. reflexivity.
Qed.

(** ** Structural validation *)

(** C2, as the specification words it, fails: a frame that lacks [timestamp]
    is not rejected by [handleMessage]; it enters [events]. *)
Lemma frame_without_timestamp_is_logged :
  frameNoTimestamp !! "timestamp" = None /\
  isOpenHandsEvent (JObj frameNoTimestamp) = false /\
  frameNoTimestamp ∈ events (receive false [frameNoTimestamp] initialState).
Proof.
  split; [|split]; [vm_refl ..|].
  destruct (receive_live [frameNoTimestamp] initialState) as (-> & _).
  cbn. apply list_elem_of_here.
Qed.

(** The check itself does not look at [type]. *)
Example frame_without_type_passes_check :
  frameNoType !! "type" = None /\ isOpenHandsEvent (JObj frameNoType) = true.
Proof. vm_conj. Qed.

Lemma handleMessage_rate (isShareRoute : bool) (e : Obj) (s : State) :
  List.filter (fun x => match x with rate_record => true | _ => false end)
              (trace (handleMessage isShareRoute e s))
  = List.filter (fun x => match x with rate_record => true | _ => false end)
                (trace s)
    ++ (if isOpenHandsEvent (JObj e) && isMessageAction e
        then [rate_record] else []).
Proof.
  unfold handleMessage.
  destruct s as [sio st ev rs le q pr sp rt nt tr].
  unfold processMessageQueue.
  destruct (isOpenHandsEvent (JObj e) && isMessageAction e), isShareRoute;
    cbn; repeat case_cond; cbn; rewrite ?List.filter_app; cbn;
    rewrite ?app_nil_r; reflexivity.
Qed.

Lemma handleMessage_share_keeps (e : Obj) (s : State) :
  let s' := handleMessage true e s in
  events s' ++ messageQueueRef s' = events s ++ messageQueueRef s ++ [e].
Proof.
  unfold handleMessage.
  destruct s as [sio st ev rs le q pr sp rt nt tr].
  unfold processMessageQueue.
  destruct (isOpenHandsEvent (JObj e) && isMessageAction e);
    cbn; repeat case_cond; cbn; rewrite <- ?app_assoc; try reflexivity.
  all: destruct q; cbn in *; try discriminate;
    repeat match goal with H : _ :: _ = _ :: _ |- _ =>
      injection H as <- <- end; reflexivity.
Qed.

(** C2 (amended): [isOpenHandsEvent] accepts exactly the non-null objects
    that have [id], [source], [message] and [timestamp] (it does not look at
    [type]); [handleMessage] consults it only, together with
    [isMessageAction], to decide whether the Rate Monitor records the
    arrival.  No frame is rejected: in LIVE mode every frame is appended to
    [events], and on the share route every frame joins the Replay Queue
    (from which the scheduler may at once move the head to [events]). *)
Theorem structural_check_gates_only_rate_monitor :
  (forall v : JsVal,
      isOpenHandsEvent v = true <->
      exists o : Obj,
        v = JObj o /\ is_Some (o !! "id") /\ is_Some (o !! "source") /\
        is_Some (o !! "message") /\ is_Some (o !! "timestamp")) /\
  (forall (e : Obj) (s : State),
      events (handleMessage false e s) = events s ++ [e]) /\
  (forall (e : Obj) (s : State),
      events (handleMessage true e s) ++ messageQueueRef (handleMessage true e s)
      = events s ++ messageQueueRef s ++ [e]) /\
  (forall (isShareRoute : bool) (e : Obj) (s : State),
      rateRecords (handleMessage isShareRoute e s)
      = rateRecords s
        + (if isOpenHandsEvent (JObj e) && isMessageAction e then 1 else 0)).
Proof.
  split; [exact isOpenHandsEvent_spec|].
  split; [intros e s; apply (handleMessage_live e s)|].
  split; [exact handleMessage_share_keeps|].
  intros b e s. unfold rateRecords. rewrite handleMessage_rate, length_app.
  destruct (isOpenHandsEvent (JObj e) && isMessageAction e); reflexivity.
Qed.

(** ** Replay: skipping to the results *)

(** C3: in a live session that has events waiting in the Replay Queue,
    [skipToResults] leaves in [events] (and hands to the consumer) exactly
    what the timer-driven loop leaves when it is let run until no timer is
    pending: the old events followed by the queue, in order.  It does so in
    one call, consuming and setting no timer, empties the queue and sets
    [replayStatus] to [COMPLETED]; the timers still pending add nothing when
    they expire later.  The loop ends with [COMPLETED] too. *)
Theorem skipToResults_matches_scheduler (s : State) :
  reachable s ->
  shouldProcessMessagesRef s = true ->
  messageQueueRef s <> [] ->
  events (skipToResults s) = events (runToCompletion s) /\
  events (skipToResults s) = events s ++ messageQueueRef s /\
  delivered (skipToResults s) = delivered (runToCompletion s) /\
  messageQueueRef (skipToResults s) = [] /\
  replayStatus (skipToResults s) = COMPLETED /\
  replayTimers (skipToResults s) = replayTimers s /\
  events (runToCompletion (skipToResults s)) = events (skipToResults s) /\
  replayStatus (runToCompletion s) = COMPLETED /\
  messageQueueRef (runToCompletion s) = [] /\
  replayTimers (runToCompletion s) = 0.
Proof.
  intros Hr Hp Hq.
  pose proof (reachable_timer_pending s Hr Hp Hq) as Ht.
  destruct (skipToResults_drains s Hq)
    as (He & Hd & Hq' & Ht' & Hs' & Hpr' & _ & _ & _ & Hp').
  destruct (runToCompletion_drains s Hp (or_introl Ht))
    as (Hre & Hrd & Hrq & Hrt & Hrs & _).
  destruct (runToCompletion_drains (skipToResults s)) as (Hse & _).
  { congruence. }
  { right. exact Hq'. }
  rewrite Hse, Hq', app_nil_r, He, Hd, Hre, Hrd.
  repeat split; auto.
Qed.

Lemma skipToResults_matches_scheduler_witness :
  events (skipToResults (session replayThree)) = [frame1; frame2; frame3] /\
  events (skipToResults (session replayThree))
  = events (runToCompletion (session replayThree)).
Proof.
  split; [vm_refl|].
  assert (reachable (session replayThree)) as Hr
      by (apply session_reachable; exists (session replayThree); vm_refl).
  assert (shouldProcessMessagesRef (session replayThree) = true) as Hp
      by vm_refl.
  assert (messageQueueRef (session replayThree) <> []) as Hq
      by (apply (nonempty_length _ 1); vm_refl).
  destruct (skipToResults_matches_scheduler _ Hr Hp Hq) as [H _].
  exact H.
Defined.

(** The two differ on the resume cursor: the loop moves it at every event
    whose [id] parses, [skipToResults] looks at the last event only. *)
Example skipToResults_cursor_differs :
  let s := session [Effect_run "c1" (JStr "jwt") true "host";
                    On_oh_event true frame1; On_oh_event true frame2;
                    On_oh_event true frameOddId] in
  lastDeliveredId (skipToResults s) = JNum 1 /\
  lastDeliveredId (runToCompletion s) = JNum 2.
Proof. vm_conj. Qed.

(** Five frames received on the share route: the loop and [skipToResults]
    both end with the five events and [COMPLETED]. *)
Example replay_five_frames :
  let s := receive true [frame1; frame2; frame3; frameNoType; frameOddId]
             (session [Effect_run "c1" (JStr "jwt") true "host"; On_connect]) in
  events s = [frame1] /\
  length (events (runToCompletion s)) = 5 /\
  replayStatus (runToCompletion s) = COMPLETED /\
  events (skipToResults s) = events (runToCompletion s) /\
  replayStatus (skipToResults s) = COMPLETED.
Proof. vm_conj. Qed.

(** ** Replay: watching again *)

(** What [resetReplay] does before it calls [processMessageQueue], and what
    that call then does in a live session. *)
Lemma resetReplay_spec (s : State) :
  exists seeded : State,
    resetReplay s = processMessageQueue seeded /\
    messageQueueRef seeded = events s /\
    events seeded = [] /\
    replayStatus seeded = IN_PROGRESS /\
    processingQueueRef seeded = false /\
    lastEventRef seeded = lastEventRef s /\
    replayTimers seeded = replayTimers s /\
    shouldProcessMessagesRef seeded = shouldProcessMessagesRef s /\
    delivered seeded = delivered s.
Proof.
  eexists. split; [reflexivity|]. simpl_state. repeat split.
Qed.

Lemma resetReplay_alive (s : State) :
  shouldProcessMessagesRef s = true ->
  let s' := resetReplay s in
  shouldProcessMessagesRef s' = true /\
  match events s with
  | [] =>
      events s' = [] /\ messageQueueRef s' = [] /\
      replayStatus s' = COMPLETED /\ replayTimers s' = replayTimers s /\
      delivered s' = delivered s /\ lastEventRef s' = lastEventRef s
  | e :: rest =>
      events s' = [e] /\ messageQueueRef s' = rest /\
      replayStatus s' = IN_PROGRESS /\ replayTimers s' = S (replayTimers s) /\
      delivered s' = delivered s ++ [e] /\
      lastEventRef s' = (if idParses e then Some e else lastEventRef s)
  end.
Proof.
  intros Hp. unfold resetReplay, processMessageQueue.
  destruct s as [sio st ev rs le q pr sp rt nt tr]; cbn in *; subst.
  destruct ev as [|e rest]; cbn.
  - simpl_state. repeat split.
  - destruct (idParses e); simpl_state; repeat split.
Qed.

(** C4: in a live session whose [events] hold the log L, [resetReplay] sets
    [replayStatus] to [IN_PROGRESS], makes L the Replay Queue, empties
    [events] and enters the scheduler ([processMessageQueue]), which leaves
    [replayStatus] at [IN_PROGRESS] and a timer pending when L is not empty;
    letting the timers run until none is pending then leaves [events] equal
    to L, each event handed to the consumer once more in the same order, the
    queue empty and [replayStatus] back at [COMPLETED]. *)
Theorem resetReplay_reproduces_log (s : State) :
  shouldProcessMessagesRef s = true ->
  (exists seeded : State,
      resetReplay s = processMessageQueue seeded /\
      messageQueueRef seeded = events s /\
      events seeded = [] /\
      replayStatus seeded = IN_PROGRESS) /\
  (events s <> [] ->
   replayStatus (resetReplay s) = IN_PROGRESS /\
   0 < replayTimers (resetReplay s)) /\
  let s' := runToCompletion (resetReplay s) in
  events s' = events s /\
  delivered s' = delivered s ++ events s /\
  messageQueueRef s' = [] /\
  replayTimers s' = 0 /\
  replayStatus s' = COMPLETED.
Proof.
  intros Hp. split; [|split].
  - destruct (resetReplay_spec s) as (seeded & ? & ? & ? & ? & _). eauto.
  - destruct (resetReplay_alive s Hp) as (_ & Hreset). cbv zeta in *.
    destruct (events s) as [|e rest]; [congruence|].
    destruct Hreset as (_ & _ & Hs & Ht & _). intros _. split; [exact Hs|lia].
  - destruct (resetReplay_alive s Hp) as (Hp' & Hreset). cbv zeta in *.
    destruct (events s) as [|e rest].
    + destruct Hreset as (He & Hq & Hs & Ht & Hd & _).
      destruct (runToCompletion_drains (resetReplay s) Hp' (or_intror Hq))
        as (He' & Hd' & Hq' & Ht' & Hs' & _).
      rewrite He', Hd', Hq', Ht', He, Hq, Hd, !app_nil_r.
      repeat split. apply Hs'. right. exact Hs.
    + destruct Hreset as (He & Hq & Hs & Ht & Hd & _).
      assert (0 < replayTimers (resetReplay s)) as Hpos by lia.
      destruct (runToCompletion_drains (resetReplay s) Hp' (or_introl Hpos))
        as (He' & Hd' & Hq' & Ht' & Hs' & _).
      rewrite He', Hd', Hq', Ht', He, Hq, Hd, <- app_assoc.
      repeat split. apply Hs'. left. exact Hpos.
Qed.

Lemma resetReplay_reproduces_log_witness :
  replayStatus (session replayDone) = COMPLETED /\
  events (session replayDone) = [frame1; frame2; frame3] /\
  replayStatus (resetReplay (session replayDone)) = IN_PROGRESS /\
  events (runToCompletion (resetReplay (session replayDone)))
  = events (session replayDone) /\
  replayStatus (runToCompletion (resetReplay (session replayDone)))
  = COMPLETED.
Proof.
  split; [vm_refl|]. split; [vm_refl|]. split; [vm_refl|].
  assert (shouldProcessMessagesRef (session replayDone) = true) as Hp
      by vm_refl.
  destruct (resetReplay_reproduces_log _ Hp)
    as (_ & _ & He & _ & _ & _ & Hs).
  split; [exact He | exact Hs].
Defined.

(** ** Transport signals *)

(** C5, as the specification words it, fails for the error signals:
    [handleError] sets the status and leaves the socket's [latest_event_id]
    as it was (here the [-1] of the connection effect) although the cursor
    stands at 2. *)
Lemma error_signal_leaves_cursor_parameter :
  lastDeliveredId (session liveTwo) = JNum 2 /\
  status (handleError false timeoutPayload (session liveTwo)) = DISCONNECTED /\
  (sioRef (handleError false timeoutPayload (session liveTwo))
     ≫= fun sio => query sio !! "latest_event_id") = Some (JNum (-1)).
Proof. vm_conj. Qed.

(** C5 (amended): the [disconnect] signal sets the status to [DISCONNECTED]
    and, when a socket is held, stores the current [lastDeliveredId] as the
    [latest_event_id] of its query, the other parameters unchanged; the error
    signals ([connect_error], [connect_failed]) set the status to
    [DISCONNECTED] and leave the socket, its query and the cursor as they
    were. *)
Theorem disconnect_signal_captures_cursor :
  (forall (data : JsVal) (s : State),
      let s' := handleDisconnect data s in
      status s' = DISCONNECTED /\
      lastEventRef s' = lastEventRef s /\
      match sioRef s, sioRef s' with
      | Some sio, Some sio' =>
          query sio' !! "latest_event_id" = Some (lastDeliveredId s) /\
          (forall k, k <> "latest_event_id" ->
                     query sio' !! k = query sio !! k) /\
          baseUrl sio' = baseUrl sio
      | None, None => True
      | _, _ => False
      end) /\
  (forall (isShareRoute : bool) (data : JsVal) (s : State),
      let s' := handleError isShareRoute data s in
      status s' = DISCONNECTED /\
      sioRef s' = sioRef s /\
      lastEventRef s' = lastEventRef s).
Proof.
  split.
  - intros data s. unfold handleDisconnect. cbn.
    destruct (sioRef s) as [sio|] eqn:Hsio; cbn; [|rewrite Hsio; auto].
    match goal with
    | |- context [updateStatusWhenErrorMessagePresent ?d ?t] =>
        destruct (updateStatusWhenErrorMessagePresent_calls d t)
          as (es & -> & _)
    end.
    cbn. repeat split.
    + apply lookup_insert_eq.
    + intros k Hk. apply lookup_insert_ne. congruence.
  - intros b data s. unfold handleError.
    destruct (updateStatusWhenErrorMessagePresent_calls data
                (setStatus s DISCONNECTED)) as (es & -> & _).
    repeat case_cond; cbn; repeat split.
Qed.

(** On a live session the disconnect signal stores the cursor. *)
Example disconnect_signal_on_live_session :
  (sioRef (handleDisconnect timeoutPayload (session liveTwo))
     ≫= fun sio => query sio !! "latest_event_id") = Some (JNum 2).
Proof. vm_refl. Qed.

(** ** Cancellation of the replay *)

(** While the processing flag is clear (the cleanup of the effect has run
    and the effect has not run again: the provider is unmounting), an
    expiring replay timer clears [processingQueueRef] and does nothing else:
    [events], the queue, the cursor and [replayStatus] stay as they were, no
    collaborator is called and no further timer is set. *)
Lemma cleared_flag_stops_replay_timer (s : State) (n : nat) :
  shouldProcessMessagesRef s = false ->
  replayTimers s = S n ->
  exists s',
    fireReplayTimer s = Some s' /\
    s' = set_processingQueueRef (set_replayTimers s n) false /\
    events s' = events s /\
    messageQueueRef s' = messageQueueRef s /\
    trace s' = trace s /\
    delivered s' = delivered s /\
    replayTimers s' = n /\
    replayStatus s' = replayStatus s /\
    lastEventRef s' = lastEventRef s.
Proof.
  intros Hp Ht. unfold fireReplayTimer, replayTimerCallback. rewrite Ht.
  cbn. rewrite Hp. cbn. eexists. repeat split.
Qed.

Lemma cleared_flag_stops_replay_timer_witness :
  messageQueueRef tornDown = [frame2; frame3] /\
  events tornDown = [frame1] /\
  exists s',
    fireReplayTimer tornDown = Some s' /\
    events s' = events tornDown /\
    messageQueueRef s' = messageQueueRef tornDown /\
    replayTimers s' = 0.
Proof.
  split; [vm_refl|]. split; [vm_refl|].
  assert (shouldProcessMessagesRef tornDown = false) as Hp by vm_refl.
  assert (replayTimers tornDown = 1) as Ht by vm_refl.
  destruct (cleared_flag_stops_replay_timer tornDown 0 Hp Ht)
    as (s' & Hfire & _ & He & Hq & _ & _ & Hn & _).
  exists s'. split; [exact Hfire|]. split; [exact He|].
  split; [exact Hq | exact Hn].
Defined.

(** When the effect runs again after its cleanup (the conversation, the
    token or the route has changed), the flag is raised anew, with the queue
    emptied.  A timer of the old session that expires before any frame of
    the new session has arrived delivers nothing, sets no timer, and marks
    the replay completed. *)
Lemma stale_timer_after_effect_rerun (conversationId : string) (jwt : JsVal)
    (isShareRoute : bool) (url : string) (s s1 s2 : State) :
  connectEffect conversationId jwt isShareRoute url (connectEffectCleanup s)
  = Some s1 ->
  fireReplayTimer s1 = Some s2 ->
  events s2 = events s /\
  delivered s2 = delivered s /\
  messageQueueRef s2 = [] /\
  S (replayTimers s2) = replayTimers s /\
  replayStatus s2 = COMPLETED.
Proof.
  intros Hrun Hfire.
  destruct (connectEffect_resets _ _ _ _ _ _ Hrun)
    as (Hp & Hq & _ & _ & He & Hd & _ & Ht & _).
  cbn in He, Hd, Ht.
  destruct (replayTimers s1) as [|n] eqn:Hn;
    [unfold fireReplayTimer in Hfire; rewrite Hn in Hfire; discriminate|].
  destruct (fireReplayTimer_alive s1 n Hp Hn) as (s' & Hs' & _ & _ & _ & H).
  rewrite Hfire in Hs'. injection Hs' as <-.
  rewrite Hq in H. destruct H as (He2 & Hq2 & Ht2 & Hr2 & _ & Hd2 & _).
  rewrite He2, Hd2, Ht2, He, Hd, <- Ht. auto.
Qed.

(** C6 fails on the code.  The cleanup of the effect clears the flag, but
    when the conversation, the token or the route changes the effect runs
    again at once and raises it, and no timer is ever cancelled.  Here the
    timer set for the old session's [frame1] is pending when the
    conversation changes; two frames of the new conversation arrive, the
    first is delivered and the second waits; then the old timer expires
    (the callbacks of the two sessions are the same code, and the older
    timer is due first): it finds the flag raised, appends the waiting frame
    to [events], hands it to the consumer and sets a further timer. *)
Theorem stale_timer_delivers_in_new_session :
  replayTimers (session replayThree) = 1 /\
  shouldProcessMessagesRef (session (replayThree ++ [Effect_cleanup]))
  = false /\
  replayTimers (session (replayThree ++ [Effect_cleanup])) = 1 /\
  shouldProcessMessagesRef (session staleHistory) = true /\
  events (session staleHistory) = [frame1; frame11] /\
  delivered (session staleHistory) = [frame1; frame11] /\
  messageQueueRef (session staleHistory) = [frame12] /\
  replayTimers (session staleHistory) = 2 /\
  events (session (staleHistory ++ [Timer_replay]))
  = [frame1; frame11; frame12] /\
  delivered (session (staleHistory ++ [Timer_replay]))
  = [frame1; frame11; frame12] /\
  messageQueueRef (session (staleHistory ++ [Timer_replay])) = [] /\
  replayTimers (session (staleHistory ++ [Timer_replay])) = 2.
Proof. vm_conj. Qed.

(** ** The guards of the replay controls *)

(** C7, as the specification words it, fails for [resetReplay]: in a LIVE
    session with an empty queue it restarts a replay of the two logged
    events. *)
Lemma resetReplay_restarts_live_session :
  messageQueueRef (session liveTwo) = [] /\
  ~ session_unchanged (session liveTwo) (resetReplay (session liveTwo)).
Proof.
  split; [vm_refl|]. intros (He & _).
  assert (length (events (resetReplay (session liveTwo))) = 1) as H1
      by vm_refl.
  assert (length (events (session liveTwo)) = 2) as H2 by vm_refl.
  rewrite He in H1. congruence.
Qed.

Example resetReplay_on_live_session :
  let s' := resetReplay (session liveTwo) in
  events s' = [frame1] /\ messageQueueRef s' = [frame2] /\
  replayStatus s' = IN_PROGRESS /\ lastDeliveredId s' = JNum 1 /\
  lastDeliveredId (session liveTwo) = JNum 2.
Proof. vm_conj. Qed.

(** [skipToResults] does not look at the mode either: on the LIVE session
    above it delivers what [resetReplay] has queued. *)
Example skipToResults_on_live_session :
  let s' := skipToResults (resetReplay (session liveTwo)) in
  events s' = [frame1; frame2] /\ replayStatus s' = COMPLETED.
Proof. vm_conj. Qed.

(** C7 (amended): with an empty Replay Queue, in either mode,
    [skipToResults] changes nothing at all.  [resetReplay] has no guard: in
    either mode and with an empty queue it queues the logged events and
    enters the scheduler, so that in a live session the first logged event is
    delivered anew (and may move the cursor back to it), the others wait in
    the queue, and [replayStatus] is [IN_PROGRESS]; only with an empty log
    does it leave the log, the queue and the cursor as they were, setting
    [replayStatus] to [COMPLETED]. *)
Theorem skipToResults_noop_resetReplay_unguarded (s : State) :
  messageQueueRef s = [] ->
  shouldProcessMessagesRef s = true ->
  skipToResults s = s /\
  match events s with
  | [] =>
      events (resetReplay s) = [] /\
      messageQueueRef (resetReplay s) = [] /\
      lastEventRef (resetReplay s) = lastEventRef s /\
      replayStatus (resetReplay s) = COMPLETED
  | e :: rest =>
      events (resetReplay s) = [e] /\
      messageQueueRef (resetReplay s) = rest /\
      lastEventRef (resetReplay s)
      = (if idParses e then Some e else lastEventRef s) /\
      replayStatus (resetReplay s) = IN_PROGRESS /\
      delivered (resetReplay s) = delivered s ++ [e] /\
      replayTimers (resetReplay s) = S (replayTimers s)
  end.
Proof.
  intros Hq Hp. split; [apply skipToResults_empty; exact Hq|].
  destruct (resetReplay_alive s Hp) as (_ & H). cbv zeta in H.
  destruct (events s) as [|e rest].
  - destruct H as (? & ? & ? & ? & ? & ?). auto.
  - destruct H as (? & ? & ? & ? & ? & ?). repeat split; assumption.
Qed.

Lemma skipToResults_noop_resetReplay_unguarded_witness :
  skipToResults (session replayDone) = session replayDone.
Proof.
  assert (messageQueueRef (session replayDone) = []) as Hq by vm_refl.
  assert (shouldProcessMessagesRef (session replayDone) = true) as Hp
      by vm_refl.
  destruct (skipToResults_noop_resetReplay_unguarded _ Hq Hp) as [H _].
  exact H.
Defined.

(** ** Sending *)

(** C8, as the specification words it, fails while the status is
    [DISCONNECTED] and a socket is held (here between the connection effect
    and the [connect] signal): [send] hands the event to the socket and logs
    nothing. *)
Lemma send_while_status_disconnected_transmits :
  status (session connecting) = DISCONNECTED /\
  transmitted (session connecting) = [] /\
  transmitted (send frame1 (session connecting))
  = [("oh_user_action", frame1)] /\
  List.filter
    (fun x => match x with EventLogger_error _ => true | _ => false end)
    (trace (send frame1 (session connecting))) = [].
Proof. vm_conj. Qed.

(** C8 (amended): while no socket is held ([sioRef.current] is null), for
    every event, [send] logs the error [WebSocket is not connected.] and does
    nothing else: nothing is handed to a socket and the state is unchanged;
    it returns normally.  While a socket is held, whatever the status, the
    event is emitted on it as [oh_user_action]. *)
Theorem send_tests_socket_not_status (event : Obj) (s : State) :
  (sioRef s = None ->
   send event s = call s (EventLogger_error "WebSocket is not connected.") /\
   trace (send event s)
   = trace s ++ [EventLogger_error "WebSocket is not connected."] /\
   transmitted (send event s) = transmitted s /\
   sioRef (send event s) = None /\
   status (send event s) = status s /\
   events (send event s) = events s /\
   messageQueueRef (send event s) = messageQueueRef s /\
   replayStatus (send event s) = replayStatus s /\
   lastEventRef (send event s) = lastEventRef s) /\
  (sioRef s <> None ->
   send event s = call s (sio_emit "oh_user_action" event) /\
   transmitted (send event s) = transmitted s ++ [("oh_user_action", event)]).
Proof.
  unfold send. split; intros Hsio.
  - rewrite Hsio. simpl_state. repeat split. exact Hsio.
  - destruct (sioRef s); [|congruence]. simpl_state. split; reflexivity.
Qed.

Lemma send_tests_socket_not_status_witness :
  trace (send frame1 (disconnect (session liveTwo)))
  = trace (disconnect (session liveTwo))
    ++ [EventLogger_error "WebSocket is not connected."] /\
  transmitted (send frame1 (disconnect (session liveTwo)))
  = transmitted (disconnect (session liveTwo)).
Proof.
  assert (sioRef (disconnect (session liveTwo)) = None) as Hsio by vm_refl.
  destruct (send_tests_socket_not_status frame1 (disconnect (session liveTwo)))
    as [Hnone _].
  destruct (Hnone Hsio) as (_ & Ht & Hx & _).
  split; [exact Ht | exact Hx].
Defined.

(** ** Classification of error payloads *)

(** C9: for every error payload that is an object carrying a string
    [message]: when the message is [websocket error] or [timeout] nothing is
    reported; for any other message exactly one chat error is reported, with
    that message, the source [websocket], as metadata the payload's [data]
    when that is an object (the empty object otherwise), and as message id
    the [msg_id] of that [data] when it is a string. *)
Theorem error_message_classification
    (payload : Obj) (message : string) (s : State) :
  payload !! "message" = Some (JStr message) ->
  (message = "websocket error" \/ message = "timeout" ->
   updateStatusWhenErrorMessagePresent (JObj payload) s = s) /\
  (message <> "websocket error" -> message <> "timeout" ->
   updateStatusWhenErrorMessagePresent (JObj payload) s
   = call s (showChatError message "websocket"
               match payload !! "data" with
               | Some (JObj d) => JObj d
               | Some (JArr l) => JArr l
               | _ => JObj ∅
               end
               match payload !! "data" with
               | Some (JObj d) =>
                   match d !! "msg_id" with
                   | Some (JStr i) => Some i
                   | _ => None
                   end
               | _ => None
               end)).
Proof.
  intros Hm. unfold updateStatusWhenErrorMessagePresent.
  cbn. unfold has, get. rewrite Hm. cbn.
  split.
  - intros [-> | ->]; reflexivity.
  - intros H1 H2.
    apply String.eqb_neq in H1, H2. rewrite H1, H2. cbn.
    destruct (payload !! "data") as [[| | b | n | x | l | d]|];
      unfold isObject; cbn; rewrite ?andb_false_r; try reflexivity.
    unfold has, get. destruct (d !! "msg_id") as [[]|]; reflexivity.
Qed.

Lemma error_message_classification_witness :
  updateStatusWhenErrorMessagePresent domainPayload initialState
  = call initialState
      (showChatError "Conversation not found" "websocket"
         (JObj {[ "msg_id" := JStr "m42" ]}) (Some "m42")).
Proof.
  assert (({[ "message" := JStr "Conversation not found";
              "data" := JObj {[ "msg_id" := JStr "m42" ]} ]} : Obj)
            !! "message" = Some (JStr "Conversation not found")) as Hm
      by vm_refl.
  destruct (error_message_classification _ _ initialState Hm) as [_ H].
  unfold domainPayload. rewrite H by discriminate. vm_refl.
Defined.

Example suppressed_messages_report_nothing :
  updateStatusWhenErrorMessagePresent timeoutPayload initialState
  = initialState /\
  updateStatusWhenErrorMessagePresent
    (JObj {[ "message" := JStr "websocket error" ]}) initialState
  = initialState.
Proof. vm_conj. Qed.

(** ** Disconnecting *)


Example disconnect_live_session :
  let s' := disconnect (session liveTwo) in
  events s' = [frame1; frame2] /\ lastDeliveredId s' = JNum 2 /\
  status s' = DISCONNECTED /\ sioRef s' = None.
Proof. vm_conj. Qed.

(** After a render the [sio.off] calls of [disconnect] are given new
    closures and remove nothing: closing the connected socket then runs its
    [disconnect] listener, and the provider ends in the same state. *)
Example disconnect_after_render :
  let s := session (liveTwo ++ [Rerender]) in
  closingSignals (session liveTwo) = false /\
  closingSignals s = true /\
  (listeners <$> sioRef (detach s)) = Some (handlers 1) /\
  (sioRef (closeHeld (detach s)) ≫= fun sio => query sio !! "latest_event_id")
  = Some (JNum 2) /\
  events (disconnect s) = [frame1; frame2] /\
  status (disconnect s) = DISCONNECTED /\ sioRef (disconnect s) = None.
Proof. vm_conj. Qed.


(** * Further properties of the provider *)

(** ** Helpers *)

(** A computation that succeeds returns what [default] reads off it. *)
Lemma succeeds_default {A : Type} (d : A) (o : option A) :
  succeeds o = true -> o = Some (default d o).
Proof. destruct o; [reflexivity | discriminate]. Qed.

Lemma succeeds_reachable (actions : list Action) :
  succeeds (run actions initialState) = true -> reachable (session actions).
Proof.
  intros H. apply session_reachable.
  exists (default initialState (run actions initialState)).
  apply succeeds_default, H.
Qed.

(** The classifier reports at most one chat error and calls nothing else. *)
Lemma updateStatusWhenErrorMessagePresent_reports (data : JsVal) (s : State) :
  exists es,
    updateStatusWhenErrorMessagePresent data s = calls s es /\
    (es = [] \/
     exists message metadata msgId,
       es = [showChatError message "websocket" metadata msgId]).
Proof.
  assert (exists es : list Effect, s = calls s es /\
            (es = [] \/
             exists message metadata msgId,
               es = [showChatError message "websocket" metadata msgId]))
    as Hnone by (exists nil; rewrite calls_nil; auto).
  unfold updateStatusWhenErrorMessagePresent.
  destruct (isObject data && inv "message" data
            && isString (getv data "message")); [|exact Hnone].
  destruct (getv data "message") as [| | | |m| |]; try exact Hnone.
  destruct (String.eqb m "websocket error" || String.eqb m "timeout");
    [exact Hnone|].
  destruct (inv "data" data && isObject (getv data "data"));
    eexists; (split; [reflexivity|]); right; eauto.
Qed.

(** ** Nothing received on the share route is lost or reordered *)

Lemma step_pipeline (a : Action) (s s' : State) :
  keepsPipeline a = true -> step a s = Some s' ->
  pipeline s' = pipeline s ++ arrival a.
Proof.
  intros Hk Hstep. unfold pipeline.
  destruct a as [ev| | | | |b ev|b data|data| | |c j b u| |];
    try discriminate Hk; unfold step in Hstep; cbn [arrival];
    rewrite ?app_nil_r.
  - injection Hstep as <-. unfold send. destruct (sioRef s); reflexivity.
  - injection Hstep as <-. rewrite disconnect_eq.
    destruct (sioRef s); reflexivity.
  - injection Hstep as <-.
    destruct (messageQueueRef s) as [|e rest] eqn:Hq.
    + rewrite skipToResults_empty, Hq by assumption. reflexivity.
    + destruct (skipToResults_drains s) as (-> & _ & -> & _);
        [congruence|].
      rewrite Hq, app_nil_r. reflexivity.
  - injection Hstep as <-. reflexivity.
  - destruct b; [|discriminate Hk].
    assert (s' = handleMessage true ev s) as -> by congruence.
    pose proof (handleMessage_share_keeps ev s) as H. cbv zeta in H.
    rewrite H, app_assoc. reflexivity.
  - injection Hstep as <-. unfold handleError. classifier_calls_by updateStatusWhenErrorMessagePresent_reports;
      repeat case_cond; reflexivity.
  - injection Hstep as <-. unfold handleDisconnect. cbn.
    destruct (sioRef s); cbn; [|reflexivity].
    classifier_calls_by updateStatusWhenErrorMessagePresent_reports;
      reflexivity.
  - unfold fireReplayTimer in Hstep.
    destruct (replayTimers s) as [|n]; [discriminate|].
    injection Hstep as <-.
    destruct s as [sio st evs rs le q pr sp rt nt tr].
    unfold replayTimerCallback, processMessageQueue; cbn.
    destruct sp, q as [|e rest]; cbn; try reflexivity.
    destruct (idParses e); cbn; rewrite <- app_assoc; reflexivity.
  - unfold fireNavigateTimer in Hstep.
    destruct (navigateTimers s); [discriminate|].
    injection Hstep as <-. reflexivity.
  - injection Hstep as <-. reflexivity.
  - injection Hstep as <-. reflexivity.
Qed.

(** X2: over any history of calls, signals and timers that contains no
    [resetReplay], no run of the connection effect and no arrival on the
    live route, the logged events followed by the queued ones grow by
    exactly the frames that arrive, in arrival order: the share route
    neither loses nor reorders nor repeats an event, whatever the
    interleaving with the timers and with [skipToResults]. *)
Theorem share_route_keeps_arrival_order (actions : list Action) :
  forall s s' : State,
    forallb keepsPipeline actions = true ->
    run actions s = Some s' ->
    events s' ++ messageQueueRef s'
    = events s ++ messageQueueRef s ++ arrivals actions.
Proof.
  induction actions as [|a actions IH]; intros s s' Hk Hrun.
  - injection Hrun as <-. cbn. rewrite !app_nil_r. reflexivity.
  - cbn in Hk, Hrun. apply andb_true_iff in Hk as [Ha Hk].
    destruct (step a s) as [s1|] eqn:Hstep; [|discriminate]. cbn in Hrun.
    rewrite (IH s1 s' Hk Hrun).
    pose proof (step_pipeline a s s1 Ha Hstep) as H1. unfold pipeline in H1.
    unfold arrivals. cbn [map concat]. fold (arrivals actions).
    rewrite !app_assoc, H1, <- !app_assoc. reflexivity.
Qed.

Lemma share_route_keeps_arrival_order_witness :
  events afterInterleaved ++ messageQueueRef afterInterleaved
  = events shareStart ++ messageQueueRef shareStart ++ arrivals interleaved.
Proof.
  assert (forallb keepsPipeline interleaved = true) as Hk by vm_refl.
  assert (succeeds (run interleaved shareStart) = true) as Hrun by vm_refl.
  exact (share_route_keeps_arrival_order interleaved shareStart
           afterInterleaved Hk (succeeds_default initialState _ Hrun)).
Defined.

(** ** The log and the consumer *)

Lemma step_log (a : Action) (s s' : State) :
  step a s = Some s' -> isResetReplay a = false ->
  exists new,
    events s' = events s ++ new /\
    delivered s' = delivered s ++ new /\
    (isSkipToResults a = false -> length new <= 1).
Proof.
  intros Hstep Hr.
  destruct a as [ev| | | | |b ev|b data|data| | |c j b u| |];
    try discriminate Hr; unfold step in Hstep.
  - exists []. injection Hstep as <-. unfold send.
    destruct (sioRef s); simpl_state; auto.
  - exists []. injection Hstep as <-. rewrite disconnect_eq.
    destruct (sioRef s); simpl_state; auto.
  - injection Hstep as <-.
    destruct (messageQueueRef s) as [|e rest] eqn:Hq.
    + exists []. rewrite skipToResults_empty, !app_nil_r by assumption.
      repeat split. discriminate.
    + exists (e :: rest).
      destruct (skipToResults_drains s) as (-> & -> & _); [congruence|].
      rewrite Hq. repeat split. discriminate.
  - exists []. injection Hstep as <-. simpl_state. auto.
  - assert (s' = handleMessage b ev s) as -> by congruence.
    destruct b.
    + destruct s as [sio st evs rs le q pr sp rt nt tr].
      unfold handleMessage, processMessageQueue.
      destruct (isOpenHandsEvent (JObj ev) && isMessageAction ev),
        sp, pr, q as [|e rest]; cbn;
        try (exists []; simpl_state; repeat split; auto; fail).
      all: try (exists [ev]; destruct (idParses ev); simpl_state;
                repeat split; auto; fail).
      all: exists [e]; destruct (idParses e); simpl_state;
           repeat split; auto.
    + exists [ev].
      destruct (handleMessage_live ev s) as (-> & _ & -> & _). auto.
  - exists []. injection Hstep as <-. unfold handleError.
    classifier_calls_by updateStatusWhenErrorMessagePresent_reports; repeat case_cond; simpl_state; auto.
  - exists []. injection Hstep as <-. unfold handleDisconnect. cbn.
    destruct (sioRef s); cbn; [|simpl_state; auto].
    classifier_calls_by updateStatusWhenErrorMessagePresent_reports;
      simpl_state; auto.
  - unfold fireReplayTimer in Hstep.
    destruct (replayTimers s) as [|n]; [discriminate|].
    injection Hstep as <-.
    destruct s as [sio st evs rs le q pr sp rt nt tr].
    unfold replayTimerCallback, processMessageQueue; cbn.
    destruct sp, q as [|e rest]; cbn;
      try (exists []; simpl_state; repeat split; auto; fail).
    exists [e]. destruct (idParses e); simpl_state; repeat split; auto.
  - unfold fireNavigateTimer in Hstep.
    destruct (navigateTimers s); [discriminate|].
    exists []. injection Hstep as <-. simpl_state. auto.
  - rewrite connectEffect_eq in Hstep.
    destruct (negb (truthy (JStr c))); [discriminate|].
    exists []. injection Hstep as <-.
    cbn. destruct (sioRef s), b; simpl_state; auto.
  - exists []. injection Hstep as <-. simpl_state. auto.
  - exists []. injection Hstep as <-. simpl_state. auto.
Qed.

(** X3: over any history without [resetReplay], [events] only grows, and
    the events appended are exactly those handed to the consumer
    [handleAssistantMessage], in the same order: the log of a provider that
    was never rewound is the sequence of events its consumer has seen. *)
Theorem log_grows_with_deliveries (actions : list Action) :
  forall s s' : State,
    existsb isResetReplay actions = false ->
    run actions s = Some s' ->
    (exists new,
        events s' = events s ++ new /\ delivered s' = delivered s ++ new) /\
    (events s = delivered s -> events s' = delivered s').
Proof.
  assert (forall s s' : State,
             existsb isResetReplay actions = false ->
             run actions s = Some s' ->
             exists new,
               events s' = events s ++ new /\
               delivered s' = delivered s ++ new) as Hgrow.
  { induction actions as [|a actions IH]; intros s s' Hk Hrun.
    - injection Hrun as <-. exists []. rewrite !app_nil_r. auto.
    - cbn in Hk, Hrun. apply orb_false_iff in Hk as [Ha Hk].
      destruct (step a s) as [s1|] eqn:Hstep; [|discriminate]. cbn in Hrun.
      destruct (step_log a s s1 Hstep Ha) as (new1 & He1 & Hd1 & _).
      destruct (IH s1 s' Hk Hrun) as (new2 & He2 & Hd2).
      exists (new1 ++ new2).
      rewrite He2, Hd2, He1, Hd1, <- !app_assoc. auto. }
  intros s s' Hk Hrun. split; [eauto|].
  destruct (Hgrow s s' Hk Hrun) as (new & -> & ->). intros ->. reflexivity.
Qed.

Lemma log_grows_with_deliveries_witness :
  events afterInterleaved = delivered afterInterleaved.
Proof.
  assert (existsb isResetReplay interleaved = false) as Hk by vm_refl.
  assert (succeeds (run interleaved shareStart) = true) as Hrun by vm_refl.
  assert (events shareStart = delivered shareStart) as H0 by vm_refl.
  destruct (log_grows_with_deliveries interleaved shareStart afterInterleaved
              Hk (succeeds_default initialState _ Hrun)) as [_ H].
  exact (H H0).
Defined.

(** ** Pacing *)

(** X10: an arrival on the share route is delivered at once only when the
    session is alive and the scheduler idle with an empty queue; it then
    starts the delivery timer.  While the processing flag is raised, or
    after the session was torn down, the frame only joins the back of the
    queue: nothing is logged, nothing is handed to the consumer and no timer
    is set. *)
Theorem share_route_arrival_paced (e : Obj) (s : State) :
  (processingQueueRef s = true \/ shouldProcessMessagesRef s = false ->
   events (handleMessage true e s) = events s /\
   delivered (handleMessage true e s) = delivered s /\
   messageQueueRef (handleMessage true e s) = messageQueueRef s ++ [e] /\
   replayTimers (handleMessage true e s) = replayTimers s /\
   lastEventRef (handleMessage true e s) = lastEventRef s /\
   replayStatus (handleMessage true e s) = replayStatus s) /\
  (processingQueueRef s = false -> shouldProcessMessagesRef s = true ->
   messageQueueRef s = [] ->
   events (handleMessage true e s) = events s ++ [e] /\
   delivered (handleMessage true e s) = delivered s ++ [e] /\
   messageQueueRef (handleMessage true e s) = [] /\
   replayTimers (handleMessage true e s) = S (replayTimers s) /\
   processingQueueRef (handleMessage true e s) = true /\
   replayStatus (handleMessage true e s) = replayStatus s).
Proof.
  destruct s as [sio st evs rs le q pr sp rt nt tr].
  unfold handleMessage, processMessageQueue. cbn. split.
  - intros [-> | ->];
      destruct (isOpenHandsEvent (JObj e) && isMessageAction e);
      cbn; rewrite ?orb_true_r; cbn; rewrite ?length_app; cbn;
      try replace (length q + 1 =? 0)%nat with false
        by (symmetry; apply Nat.eqb_neq; lia);
      rewrite ?andb_false_r; simpl_state; repeat split.
  - intros -> -> ->.
    destruct (isOpenHandsEvent (JObj e) && isMessageAction e); cbn;
      destruct (idParses e); simpl_state; repeat split.
Qed.

Lemma share_route_arrival_paced_witness :
  events (handleMessage true frame3 (session replayThree))
  = events (session replayThree) /\
  messageQueueRef (handleMessage true frame3 (session replayThree))
  = messageQueueRef (session replayThree) ++ [frame3].
Proof.
  assert (processingQueueRef (session replayThree) = true) as Hp by vm_refl.
  destruct (share_route_arrival_paced frame3 (session replayThree))
    as [Hbusy _].
  destruct (Hbusy (or_introl Hp)) as (He & _ & Hq & _).
  split; [exact He | exact Hq].
Defined.

(** ** Timers are never cancelled *)

(** X12: no call, signal or effect cancels a pending timer.  An expiring
    replay timer takes one from the pending replay timers and sets at most
    one; every other action leaves their number as it was or adds one.  The
    same holds of the navigation timers, which nothing but their own expiry
    takes away. *)
Theorem timers_only_expire (a : Action) (s s' : State) :
  step a s = Some s' ->
  (if isTimerReplay a
   then replayTimers s' = replayTimers s \/
        S (replayTimers s') = replayTimers s
   else replayTimers s' = replayTimers s \/
        replayTimers s' = S (replayTimers s)) /\
  (if isTimerNavigate a
   then S (navigateTimers s') = navigateTimers s
   else navigateTimers s' = navigateTimers s \/
        navigateTimers s' = S (navigateTimers s)).
Proof.
  intros Hstep.
  destruct a as [ev| | | | |b ev|b data|data| | |c j b u| |];
    unfold step in Hstep; cbn [isTimerReplay isTimerNavigate].
  - injection Hstep as <-. unfold send. destruct (sioRef s); cbn; auto.
  - injection Hstep as <-. rewrite disconnect_eq.
    destruct (sioRef s); cbn; auto.
  - injection Hstep as <-.
    destruct s as [sio st evs rs le q pr sp rt nt tr].
    unfold skipToResults. cbn. destruct q as [|e rest]; cbn; auto.
    rewrite forEach_call. repeat case_cond; cbn; auto.
  - injection Hstep as <-.
    destruct s as [sio st evs rs le q pr sp rt nt tr].
    unfold resetReplay, processMessageQueue. cbn.
    destruct sp, evs as [|e rest]; cbn; auto.
    destruct (idParses e); cbn; auto.
  - injection Hstep as <-. cbn. auto.
  - assert (s' = handleMessage b ev s) as -> by congruence.
    destruct s as [sio st evs rs le q pr sp rt nt tr].
    unfold handleMessage, processMessageQueue.
    destruct (isOpenHandsEvent (JObj ev) && isMessageAction ev), b; cbn;
      repeat case_cond; cbn; auto.
  - injection Hstep as <-. unfold handleError.
    classifier_calls_by updateStatusWhenErrorMessagePresent_reports; repeat case_cond; cbn; auto.
  - injection Hstep as <-. unfold handleDisconnect. cbn.
    destruct (sioRef s); cbn; [|auto].
    classifier_calls_by updateStatusWhenErrorMessagePresent_reports;
      cbn; auto.
  - unfold fireReplayTimer in Hstep.
    destruct (replayTimers s) as [|n] eqn:Ht; [discriminate|].
    injection Hstep as <-.
    destruct s as [sio st evs rs le q pr sp rt nt tr]. cbn in Ht. subst rt.
    unfold replayTimerCallback, processMessageQueue; cbn.
    destruct sp, q as [|e rest]; cbn; auto.
    destruct (idParses e); cbn; auto.
  - unfold fireNavigateTimer in Hstep.
    destruct (navigateTimers s) as [|n] eqn:Ht; [discriminate|].
    injection Hstep as <-. cbn. auto.
  - rewrite connectEffect_eq in Hstep.
    destruct (negb (truthy (JStr c))); [discriminate|].
    injection Hstep as <-. cbn. auto.
  - injection Hstep as <-. cbn. auto.
  - injection Hstep as <-. cbn. auto.
Qed.

Lemma timers_only_expire_witness :
  replayTimers afterExpiry = replayTimers (session replayThree) \/
  S (replayTimers afterExpiry) = replayTimers (session replayThree).
Proof.
  assert (succeeds (step Timer_replay (session replayThree)) = true)
    as Hstep by vm_refl.
  destruct (timers_only_expire Timer_replay (session replayThree) afterExpiry
              (succeeds_default initialState _ Hstep)) as [H _].
  exact H.
Defined.

(** ** The resume cursor *)

Lemma step_cursor (a : Action) (s s' : State) :
  step a s = Some s' ->
  (exists new, delivered s' = delivered s ++ new) /\
  (lastEventRef s' = lastEventRef s \/ lastEventRef s' = None \/
   exists e, lastEventRef s' = Some e /\ idParses e = true /\
             e ∈ delivered s') /\
  ((query <$> sioRef s') = (query <$> sioRef s) \/ sioRef s' = None \/
   (exists sio, sioRef s' = Some sio /\
                query sio !! "latest_event_id" = Some (JNum (-1))) \/
   (exists sio, sioRef s' = Some sio /\
                query sio !! "latest_event_id" = Some (lastDeliveredId s))).
Proof.
  intros Hstep.
  destruct a as [ev| | | | |b ev|b data|data| | |c j b u| |];
    unfold step in Hstep.
  - injection Hstep as <-. unfold send.
    destruct (sioRef s) eqn:Hs; simpl_state; rewrite ?Hs;
      (split; [grow|]); auto.
  - injection Hstep as <-. rewrite disconnect_eq.
    destruct (sioRef s) eqn:Hs; simpl_state; rewrite ?Hs;
      (split; [grow|]); auto.
  - injection Hstep as <-.
    destruct (messageQueueRef s) as [|e rest] eqn:Hq.
    + rewrite skipToResults_empty by assumption.
      split; [grow|]. auto.
    + destruct (skipToResults_drains s)
        as (_ & Hd & _ & _ & _ & _ & Hl & Hs & _); [congruence|].
      rewrite Hd, Hl, Hs. split; [eauto|]. split; [|auto].
      destruct (last (messageQueueRef s)) as [l|] eqn:Hlast; [|auto].
      destruct (idParses l) eqn:Hid; [|auto].
      right; right. exists l. split; [reflexivity|]. split; [exact Hid|].
      apply last_Some_elem_of in Hlast. set_solver.
  - injection Hstep as <-.
    destruct s as [sio st evs rs le q pr sp rt nt tr].
    unfold resetReplay, processMessageQueue. cbn.
    destruct sp, evs as [|e rest]; cbn;
      try (simpl_state; (split; [grow|]);
           auto; fail).
    destruct (idParses e) eqn:Hid; simpl_state;
      (split; [grow|]); (split; [|auto]).
    + cursor_new Hid.
    + cursor_same.
  - injection Hstep as <-. simpl_state.
    split; [grow|]. split; [auto|]. left. destruct (sioRef s); reflexivity.
  - assert (s' = handleMessage b ev s) as -> by congruence.
    destruct s as [sio st evs rs le q pr sp rt nt tr].
    unfold handleMessage, processMessageQueue.
    destruct (isOpenHandsEvent (JObj ev) && isMessageAction ev), b; cbn;
      repeat case_cond; simpl_state;
      (split; [grow|]);
      (split; [|auto]);
      first [cursor_same
            | match goal with H : idParses _ = true |- _ => cursor_new H end].
  - injection Hstep as <-. unfold handleError.
    classifier_calls_by updateStatusWhenErrorMessagePresent_reports; repeat case_cond; simpl_state;
      (split; [grow|]); auto.
  - injection Hstep as <-. unfold handleDisconnect. cbn.
    destruct (sioRef s) as [sio|] eqn:Hs; cbn.
    + classifier_calls_by updateStatusWhenErrorMessagePresent_reports;
        simpl_state;
        (split; [grow|]);
        (split; [auto|]); right; right; right;
        eexists; (split; [reflexivity|]); apply lookup_insert_eq.
    + simpl_state. rewrite ?Hs.
      split; [grow|]. auto.
  - unfold fireReplayTimer in Hstep.
    destruct (replayTimers s) as [|n] eqn:Ht; [discriminate|].
    injection Hstep as <-.
    destruct s as [sio st evs rs le q pr sp rt nt tr].
    unfold replayTimerCallback, processMessageQueue; cbn.
    destruct sp, q as [|e rest]; cbn;
      try (simpl_state; (split; [grow|]);
           auto; fail).
    destruct (idParses e) eqn:Hid; simpl_state;
      (split; [grow|]); (split; [|auto]).
    + cursor_new Hid.
    + cursor_same.
  - unfold fireNavigateTimer in Hstep.
    destruct (navigateTimers s) as [|n]; [discriminate|].
    injection Hstep as <-. simpl_state.
    split; [grow|]. auto.
  - rewrite connectEffect_eq in Hstep.
    destruct (negb (truthy (JStr c))); [discriminate|].
    injection Hstep as <-.
    cbn. destruct (sioRef s), b; simpl_state;
      (split; [grow|]);
      (split; [auto|]); right; right; left;
      eexists; (split; [reflexivity|]); vm_refl.
  - injection Hstep as <-. simpl_state.
    split; [grow|]. auto.
  - injection Hstep as <-. simpl_state.
    split; [grow|]. auto.
Qed.

Lemma step_cursor_inv (a : Action) (s s' : State) :
  cursor_inv s -> step a s = Some s' -> cursor_inv s'.
Proof.
  intros [Hc Hq] Hstep.
  destruct (step_cursor a s s' Hstep) as ((new & Hd) & Hl & Hs).
  assert (forall e, lastEventRef s' = Some e ->
                    idParses e = true /\ e ∈ delivered s') as Hc'.
  { intros e He. destruct Hl as [Hl | [Hl | (e' & Hl & Hid & Hin)]].
    - rewrite Hl in He. destruct (Hc e He) as [? ?].
      split; [assumption|]. rewrite Hd. apply elem_of_app. auto.
    - congruence.
    - assert (e' = e) as <- by congruence. auto. }
  split; [exact Hc'|].
  intros sio Hsio.
  destruct Hs as [Hs | [Hs | [(sio' & Hs & Hv) | (sio' & Hs & Hv)]]].
  - rewrite Hsio in Hs. destruct (sioRef s) as [sio0|]; [|discriminate].
    injection Hs as Hs. rewrite Hs.
    destruct (Hq sio0 eq_refl) as [? | [? | (e & Hin & Hid & Hv)]]; auto.
    right; right. exists e. split; [rewrite Hd; apply elem_of_app; auto | auto].
  - congruence.
  - assert (sio' = sio) as <- by congruence. auto.
  - assert (sio' = sio) as <- by congruence.
    unfold lastDeliveredId in Hv.
    destruct (lastEventRef s) as [e|] eqn:He; [|auto].
    destruct (Hc e eq_refl) as [Hid Hin].
    right; right. exists e. split; [rewrite Hd; apply elem_of_app; auto | auto].
Qed.

(** X4: in every state a provider can reach, the resume cursor
    [lastEventRef], when set, is an event that was handed to the consumer
    and whose [id] [parseInt] reads as a number; and the [latest_event_id]
    of the socket held is either the [-1] the connection effect wrote, or
    [undefined] (a disconnect signal before any cursor was set), or the [id]
    of such an event. *)
Theorem cursor_is_a_delivered_event (s : State) :
  reachable s -> cursor_inv s.
Proof.
  induction 1 as [|a s s' _ IH Hstep].
  - split; [discriminate | discriminate].
  - eauto using step_cursor_inv.
Qed.

Lemma cursor_is_a_delivered_event_witness :
  idParses frame2 = true /\ frame2 ∈ delivered (session liveTwo).
Proof.
  assert (reachable (session liveTwo)) as Hr
      by (apply succeeds_reachable; vm_refl).
  assert (lastEventRef (session liveTwo) = Some frame2) as Hl by vm_refl.
  destruct (cursor_is_a_delivered_event (session liveTwo) Hr) as [Hc _].
  exact (Hc frame2 Hl).
Defined.

(** ** One socket at a time *)

Lemma filter_handled (f : Effect -> bool) (l : list Obj) :
  (forall e, f (handleAssistantMessage e) = false) ->
  List.filter f (map handleAssistantMessage l) = [].
Proof.
  intros Hf. induction l as [|e l IH]; cbn; [reflexivity|].
  rewrite Hf. exact IH.
Qed.

Lemma step_sockets (a : Action) (s s' : State) :
  opened s = closed s + held s -> step a s = Some s' ->
  opened s' = closed s' + held s'.
Proof.
  intros Hinv Hstep.
  destruct s as [sio st evs rs le q pr sp rt nt tr].
  unfold held, opened, closed in *. cbn in Hinv.
  destruct a as [ev| | | | |b ev|b data|data| | |c j b u| |];
    unfold step in Hstep.
  - injection Hstep as <-. unfold send.
    destruct sio; cbn; rewrite ?List.filter_app, ?length_app; cbn; lia.
  - injection Hstep as <-. rewrite disconnect_eq.
    destruct sio; cbn; rewrite ?List.filter_app, ?length_app; cbn; lia.
  - injection Hstep as <-.
    unfold skipToResults. cbn. destruct q as [|e rest]; cbn; [lia|].
    rewrite forEach_call.
    destruct sio, (last (e :: rest)) as [l|]; [destruct (idParses l)| |
                                               destruct (idParses l)|];
      cbn; rewrite ?List.filter_app, ?length_app; cbn;
      rewrite !filter_handled by reflexivity; cbn; lia.
  - injection Hstep as <-.
    unfold resetReplay, processMessageQueue. cbn.
    destruct sio, sp, evs as [|e rest]; cbn; try destruct (idParses e); cbn;
      rewrite ?List.filter_app, ?length_app; cbn; lia.
  - injection Hstep as <-. destruct sio; exact Hinv.
  - injection Hstep as <-.
    unfold handleMessage, processMessageQueue.
    destruct (isOpenHandsEvent (JObj ev) && isMessageAction ev), b, sio,
      sp, pr, q as [|e rest]; cbn;
      try destruct (idParses ev); try destruct (idParses e); cbn;
      rewrite ?List.filter_app, ?length_app; cbn; lia.
  - injection Hstep as <-. unfold handleError.
    classifier_calls_by updateStatusWhenErrorMessagePresent_reports; destruct sio; repeat case_cond; cbn in *;
      try discriminate;
      rewrite ?List.filter_app, ?length_app; cbn; lia.
  - injection Hstep as <-. unfold handleDisconnect. cbn.
    destruct sio; cbn; [|lia].
    classifier_calls_by updateStatusWhenErrorMessagePresent_reports;
      cbn; rewrite ?List.filter_app, ?length_app; cbn; lia.
  - unfold fireReplayTimer in Hstep. cbn in Hstep.
    destruct rt as [|n]; [discriminate|].
    injection Hstep as <-.
    unfold replayTimerCallback, processMessageQueue. cbn.
    destruct sio, sp, q as [|e rest]; cbn; try destruct (idParses e); cbn;
      rewrite ?List.filter_app, ?length_app; cbn; lia.
  - unfold fireNavigateTimer in Hstep. cbn in Hstep.
    destruct nt as [|n]; [discriminate|].
    injection Hstep as <-. destruct sio; cbn;
      rewrite ?List.filter_app, ?length_app; cbn; lia.
  - rewrite connectEffect_eq in Hstep.
    destruct (negb (truthy (JStr c))); [discriminate|].
    injection Hstep as <-.
    destruct sio, b; cbn;
      rewrite ?List.filter_app, ?length_app; cbn; lia.
  - injection Hstep as <-. exact Hinv.
  - injection Hstep as <-. exact Hinv.
Qed.

(** X5: in every state a provider can reach, the sockets created by [io]
    exceed the sockets closed by [sio.disconnect] by exactly one while
    [sioRef] holds a socket and by none otherwise: the connection effect and
    [disconnect] close the socket held before another is created or the ref
    is cleared, so two sockets are never open at once. *)
Theorem one_socket_at_a_time (s : State) :
  reachable s ->
  opened s = closed s + match sioRef s with Some _ => 1 | None => 0 end.
Proof.
  induction 1 as [|a s s' _ IH Hstep].
  - reflexivity.
  - exact (step_sockets a s s' IH Hstep).
Qed.

Lemma one_socket_at_a_time_witness :
  opened reconnected = 2 /\ closed reconnected = 1 /\
  opened reconnected
  = closed reconnected
    + match sioRef reconnected with Some _ => 1 | None => 0 end.
Proof.
  split; [vm_refl|]. split; [vm_refl|].
  assert (reachable reconnected) as Hr
      by (apply (succeeds_reachable reconnecting); vm_refl).
  exact (one_socket_at_a_time reconnected Hr).
Defined.

(** ** The scheduler's flags *)

(** X1: in every state a provider can reach, the processing flag is raised
    only while a replay timer is pending, and in a live session (the
    teardown flag not cleared) events wait in the queue only while the
    processing flag is raised: a queued event always has an expiry ahead
    that will deliver it. *)
Theorem queued_events_have_a_timer (s : State) :
  reachable s ->
  (processingQueueRef s = true -> 0 < replayTimers s) /\
  (shouldProcessMessagesRef s = true -> messageQueueRef s <> [] ->
   processingQueueRef s = true /\ 0 < replayTimers s).
Proof.
  intros Hr. destruct (reachable_scheduler_inv s Hr) as [H1 H2].
  split; [exact H1|]. intros Hp Hq. split; auto.
Qed.

Lemma queued_events_have_a_timer_witness :
  messageQueueRef afterExpiry = [frame3] /\
  processingQueueRef afterExpiry = true /\ 0 < replayTimers afterExpiry.
Proof.
  split; [vm_refl|].
  assert (reachable afterExpiry) as Hr.
  { apply (reachable_step Timer_replay (session replayThree)).
    - apply succeeds_reachable. vm_refl.
    - apply (succeeds_default initialState). vm_refl. }
  assert (shouldProcessMessagesRef afterExpiry = true) as Hp by vm_refl.
  assert (messageQueueRef afterExpiry <> []) as Hq
      by (apply (nonempty_length _ 0); vm_refl).
  destruct (queued_events_have_a_timer afterExpiry Hr) as [_ H].
  exact (H Hp Hq).
Defined.

(** ** A replay from the first frame to the last *)

Lemma receive_reachable (b : bool) (frames : list Obj) :
  forall s, reachable s -> reachable (receive b frames s).
Proof.
  induction frames as [|e frames IH]; intros s Hr; [exact Hr|].
  apply IH. exact (reachable_step (On_oh_event b e) s _ Hr eq_refl).
Qed.

Lemma receive_share (frames : list Obj) :
  forall s,
    events (receive true frames s) ++ messageQueueRef (receive true frames s)
    = events s ++ messageQueueRef s ++ frames /\
    shouldProcessMessagesRef (receive true frames s)
    = shouldProcessMessagesRef s /\
    (replayStatus s = COMPLETED ->
     replayStatus (receive true frames s) = COMPLETED).
Proof.
  induction frames as [|e frames IH]; intros s.
  - cbn. rewrite !app_nil_r. auto.
  - unfold receive in *. cbn [foldl].
    destruct (IH (handleMessage true e s)) as (Hp & Hs & Hc).
    rewrite Hp, Hs.
    pose proof (handleMessage_share_keeps e s) as H. cbv zeta in H.
    rewrite app_assoc, H, <- !app_assoc. split; [reflexivity|].
    assert (shouldProcessMessagesRef (handleMessage true e s)
            = shouldProcessMessagesRef s /\
            (replayStatus s = COMPLETED ->
             replayStatus (handleMessage true e s) = COMPLETED)) as [H1 H2].
    { destruct s as [sio st evs rs le q pr sp rt nt tr].
      unfold handleMessage, processMessageQueue.
      destruct (isOpenHandsEvent (JObj e) && isMessageAction e); cbn;
        repeat case_cond; cbn; auto. }
    split; [exact H1 | auto].
Qed.

Lemma arrival_sets_timer (e : Obj) (s : State) :
  scheduler_inv s -> shouldProcessMessagesRef s = true ->
  0 < replayTimers (handleMessage true e s) /\
  shouldProcessMessagesRef (handleMessage true e s) = true.
Proof.
  intros [H1 H2] Hp.
  destruct s as [sio st evs rs le q pr sp rt nt tr]. cbn in *. subst sp.
  unfold handleMessage, processMessageQueue.
  destruct (isOpenHandsEvent (JObj e) && isMessageAction e), pr,
    q as [|e' rest]; cbn; try destruct (idParses e);
    try destruct (idParses e'); cbn; split; auto; lia.
Qed.

Lemma receive_timer (frames : list Obj) :
  forall s,
    scheduler_inv s -> shouldProcessMessagesRef s = true ->
    0 < replayTimers s \/ frames <> [] ->
    0 < replayTimers (receive true frames s).
Proof.
  induction frames as [|e frames IH]; intros s Hinv Hp Hrun.
  - destruct Hrun as [?|?]; [assumption | congruence].
  - unfold receive in *. cbn [foldl].
    destruct (arrival_sets_timer e s Hinv Hp) as [Ht Hp1].
    apply IH; auto.
    exact (step_scheduler_inv (On_oh_event true e) s _ Hinv eq_refl).
Qed.

(** X15: on the share route of a live session, whatever frames arrive, once
    the timers have run out [events] holds what was logged before, then
    what was waiting, then the frames received, in arrival order, and the
    queue is empty; if at least one frame arrived, or an event was waiting,
    [replayStatus] is [COMPLETED].  (A share-route session that receives
    nothing sets no timer and its [replayStatus] stays as the effect left
    it.) *)
Theorem replay_delivers_every_frame (frames : list Obj) (s : State) :
  reachable s ->
  shouldProcessMessagesRef s = true ->
  let s' := runToCompletion (receive true frames s) in
  events s' = events s ++ messageQueueRef s ++ frames /\
  messageQueueRef s' = [] /\
  replayTimers s' = 0 /\
  (messageQueueRef s ++ frames <> [] -> replayStatus s' = COMPLETED).
Proof.
  intros Hr Hp s'.
  pose proof (receive_reachable true frames s Hr) as Hr1.
  destruct (receive_share frames s) as (Hpipe & Hp1 & _).
  rewrite Hp in Hp1.
  pose proof (reachable_scheduler_inv _ Hr) as Hinv.
  destruct (reachable_scheduler_inv _ Hr1) as [Hi1 Hi2].
  assert (0 < replayTimers (receive true frames s) \/
          messageQueueRef (receive true frames s) = []) as Hrun.
  { destruct (messageQueueRef (receive true frames s)) eqn:Hq; [auto|].
    left. apply Hi1, Hi2; [exact Hp1 | discriminate]. }
  destruct (runToCompletion_drains _ Hp1 Hrun)
    as (He & Hd & Hq & Ht & Hs & _).
  fold s' in He, Hd, Hq, Ht, Hs.
  rewrite He, Hpipe. repeat split; try assumption.
  intros Hne. apply Hs. left. apply receive_timer; try assumption.
  destruct frames as [|e frames]; [|right; discriminate].
  left. rewrite app_nil_r in Hne. destruct Hinv as [H1 H2]. auto.
Qed.

Lemma replay_delivers_every_frame_witness :
  events (runToCompletion (receive true [frame1; frame2; frame3] shareStart))
  = events shareStart ++ messageQueueRef shareStart
    ++ [frame1; frame2; frame3].
Proof.
  assert (reachable shareStart) as Hr
      by (apply succeeds_reachable; vm_refl).
  assert (shouldProcessMessagesRef shareStart = true) as Hp by vm_refl.
  destruct (replay_delivers_every_frame [frame1; frame2; frame3] shareStart
              Hr Hp) as [H _].
  exact H.
Defined.

(** A share-route session that receives nothing, and in which no timer is
    pending, stays [IN_PROGRESS]. *)
Example empty_replay_stays_in_progress :
  replayStatus (runToCompletion shareStart) = IN_PROGRESS /\
  replayTimers shareStart = 0.
Proof. vm_conj. Qed.

(** ** The cursor after a replay *)

(** X11: from a live state with events waiting, [skipToResults] moves the
    resume cursor to the last queued event when its [id] parses and leaves
    it otherwise, whereas the timer loop leaves it at the last queued event
    whose [id] parses (any of them); the two agree whenever the [id] of the
    last queued event parses. *)
Theorem cursor_after_replay (s : State) :
  reachable s ->
  shouldProcessMessagesRef s = true ->
  messageQueueRef s <> [] ->
  lastEventRef (skipToResults s)
  = match last (messageQueueRef s) with
    | Some e => if idParses e then Some e else lastEventRef s
    | None => lastEventRef s
    end /\
  lastEventRef (runToCompletion s)
  = match last (List.filter idParses (messageQueueRef s)) with
    | Some e => Some e
    | None => lastEventRef s
    end /\
  (forall e, last (messageQueueRef s) = Some e -> idParses e = true ->
             lastEventRef (skipToResults s) = Some e /\
             lastEventRef (runToCompletion s) = Some e).
Proof.
  intros Hr Hp Hq.
  pose proof (reachable_timer_pending s Hr Hp Hq) as Ht.
  destruct (skipToResults_drains s Hq) as (_ & _ & _ & _ & _ & _ & Hl & _).
  destruct (runToCompletion_drains s Hp (or_introl Ht))
    as (_ & _ & _ & _ & _ & _ & Hl' & _).
  split; [exact Hl|]. split; [exact Hl'|].
  intros e He Hid. rewrite Hl, Hl', He, Hid.
  rewrite (last_filter_last idParses _ e He Hid). auto.
Qed.

Lemma cursor_after_replay_witness :
  lastEventRef (skipToResults (session replayThree)) = Some frame3 /\
  lastEventRef (runToCompletion (session replayThree)) = Some frame3.
Proof.
  assert (reachable (session replayThree)) as Hr
      by (apply succeeds_reachable; vm_refl).
  assert (shouldProcessMessagesRef (session replayThree) = true) as Hp
      by vm_refl.
  assert (messageQueueRef (session replayThree) <> []) as Hq
      by (apply (nonempty_length _ 1); vm_refl).
  assert (last (messageQueueRef (session replayThree)) = Some frame3) as Hl
      by vm_refl.
  assert (idParses frame3 = true) as Hid by vm_refl.
  destruct (cursor_after_replay (session replayThree) Hr Hp Hq)
    as (_ & _ & H).
  exact (H frame3 Hl Hid).
Defined.

(** ** The connection effect *)

(** What a step does to the listeners of the socket held and to the
    render. *)
Lemma step_listeners (a : Action) (s s' : State) :
  step a s = Some s' ->
  render s <= render s' /\
  (sioRef s' = None \/
   (listeners <$> sioRef s') = (listeners <$> sioRef s) \/
   exists url q, sioRef s' = Some (freshSocket url q (render s'))).
Proof.
  intros Hstep.
  destruct a as [ev| | | | |b ev|b data|data| | |c j b u| |];
    unfold step in Hstep.
  - injection Hstep as <-. unfold send.
    destruct (sioRef s) eqn:Hs; cbn; rewrite ?Hs; auto.
  - injection Hstep as <-. rewrite disconnect_eq.
    destruct (sioRef s) eqn:Hs; cbn; rewrite ?Hs; auto.
  - injection Hstep as <-.
    destruct (messageQueueRef s) as [|e rest] eqn:Hq.
    + rewrite skipToResults_empty by assumption. auto.
    + unfold skipToResults. rewrite Hq. cbn. rewrite forEach_call.
      repeat case_cond; cbn; auto.
  - injection Hstep as <-. unfold resetReplay, processMessageQueue. cbn.
    repeat case_cond; cbn; auto.
  - injection Hstep as <-. cbn. split; [lia|]. right; left.
    destruct (sioRef s); reflexivity.
  - assert (s' = handleMessage b ev s) as -> by congruence.
    unfold handleMessage, processMessageQueue.
    destruct (isOpenHandsEvent (JObj ev) && isMessageAction ev), b; cbn;
      repeat case_cond; cbn; auto.
  - injection Hstep as <-. unfold handleError.
    classifier_calls_by updateStatusWhenErrorMessagePresent_reports;
      repeat case_cond; cbn; auto.
  - injection Hstep as <-. unfold handleDisconnect. cbn.
    destruct (sioRef s) as [sio|] eqn:Hs; cbn; [|rewrite Hs; auto].
    classifier_calls_by updateStatusWhenErrorMessagePresent_reports;
      cbn; auto.
  - unfold fireReplayTimer in Hstep.
    destruct (replayTimers s) as [|n] eqn:Ht; [discriminate|].
    injection Hstep as <-.
    unfold replayTimerCallback, processMessageQueue; cbn.
    repeat case_cond; cbn; auto.
  - unfold fireNavigateTimer in Hstep.
    destruct (navigateTimers s) as [|n]; [discriminate|].
    injection Hstep as <-. cbn. auto.
  - rewrite connectEffect_eq in Hstep.
    destruct (negb (truthy (JStr c))); [discriminate|].
    injection Hstep as <-. cbn. split; [lia|]. right; right. eauto.
  - injection Hstep as <-. cbn. auto.
  - injection Hstep as <-. cbn. auto.
Qed.

Lemma reachable_listeners (s : State) : reachable s -> listeners_inv s.
Proof.
  induction 1 as [|a s s' _ IH Hstep]; [discriminate|].
  destruct (step_listeners a s s' Hstep) as (Hr & [Hs | [Hs | (u & q & Hs)]]);
    intros sio Hsio.
  - congruence.
  - rewrite Hsio in Hs.
    destruct (sioRef s) as [sio0|] eqn:Hs0; [|discriminate].
    injection Hs as Hs. destruct (IH sio0 Hs0) as (r & Hle & Hl).
    exists r. split; [lia | congruence].
  - rewrite Hs in Hsio. injection Hsio as <-. exists (render s'). auto.
Qed.

(** The [sio.off] calls of a later render find none of the listeners. *)
Lemma detached_later (r render : nat) (sio : Socket) :
  listeners sio = handlers r -> r <> render ->
  listeners (detached render sio) = handlers r.
Proof.
  intros Hl Hne. unfold detached, off. cbn. rewrite Hl.
  apply Nat.eqb_neq in Hne. unfold handlers. cbn.
  repeat (rewrite Hne; cbn). reflexivity.
Qed.

(** When the effect runs, closing the socket held runs its [disconnect]
    listener exactly when that socket is connected. *)
Lemma closingSignals_rerender (s : State) :
  listeners_inv s -> closingSignals (rerender s) = heldConnected s.
Proof.
  intros Hinv. unfold closingSignals, heldConnected. cbn.
  destruct (sioRef s) as [sio|] eqn:Hs; [|reflexivity].
  destruct (Hinv sio Hs) as (r & Hle & Hl).
  assert (r <> S (render s)) as Hne by lia.
  pose proof (detached_later r (S (render s)) sio Hl Hne) as Hd.
  unfold detached, off in Hd. cbn in Hd. rewrite Hd.
  cbn. apply andb_true_r.
Qed.

(** X6: a run of the connection effect in a provider that has run so far.
    It throws when the conversation id is empty.  Otherwise it raises the
    processing flag, clears the cursor, the queue and the busy flag, and
    holds a new socket, not yet connected, with the five listeners of this
    render and a query that carries [latest_event_id = -1], the conversation
    id and the token, with [mode = shared] on the share route only, where it
    also sets [replayStatus] to [IN_PROGRESS].  It leaves [events] and the
    pending timers as they were.  Before it creates the new socket it makes
    the five [sio.off] calls on the socket held, if any, and closes it: the
    calls are given the closures of this render and remove nothing, so that
    when the old socket is connected its [disconnect] listener runs and the
    effect ends with the status [DISCONNECTED]; otherwise the status is as it
    was. *)
Theorem connectEffect_contract (conversationId : string) (jwt : JsVal)
    (isShareRoute : bool) (url : string) (s : State) :
  reachable s ->
  (conversationId = "" ->
   step (Effect_run conversationId jwt isShareRoute url) s = None) /\
  (conversationId <> "" ->
   exists s',
     step (Effect_run conversationId jwt isShareRoute url) s = Some s' /\
     shouldProcessMessagesRef s' = true /\
     lastEventRef s' = None /\
     messageQueueRef s' = [] /\
     processingQueueRef s' = false /\
     events s' = events s /\
     status s' = (if heldConnected s then DISCONNECTED else status s) /\
     replayTimers s' = replayTimers s /\
     navigateTimers s' = navigateTimers s /\
     replayStatus s'
     = (if isShareRoute then IN_PROGRESS else replayStatus s) /\
     render s' = S (render s) /\
     (exists q : Obj,
         sioRef s' = Some (mkSocket url q false (handlers (render s'))) /\
         q !! "latest_event_id" = Some (JNum (-1)) /\
         q !! "conversation_id" = Some (JStr conversationId) /\
         q !! "auth" = Some jwt /\
         q !! "mode" = (if isShareRoute then Some (JStr "shared") else None) /\
         trace s'
         = trace s
           ++ (match sioRef s with
               | Some _ =>
                   [sio_off "connect"; sio_off "oh_event";
                    sio_off "connect_error"; sio_off "connect_failed";
                    sio_off "disconnect"; sio_disconnect]
               | None => []
               end)
           ++ [io_open url q; sio_on "connect"; sio_on "oh_event";
               sio_on "connect_error"; sio_on "connect_failed";
               sio_on "disconnect"])).
Proof.
  intros Hr. unfold step. rewrite connectEffect_eq. split.
  - intros ->. reflexivity.
  - intros Hc. destruct conversationId as [|c r]; [congruence|].
    cbn [truthy negb String.eqb]. eexists. split; [reflexivity|].
    cbn. rewrite (closingSignals_rerender s (reachable_listeners s Hr)).
    repeat (split; [reflexivity|]).
    eexists. split; [reflexivity|].
    destruct isShareRoute; (do 4 (split; [vm_refl|])); reflexivity.
Qed.

Lemma connectEffect_contract_witness :
  status (session liveTwo) = CONNECTED /\
  exists s',
    step (Effect_run "c2" (JStr "jwt") true "host") (session liveTwo)
    = Some s' /\
    status s' = DISCONNECTED /\ events s' = events (session liveTwo).
Proof.
  split; [vm_refl|].
  assert (reachable (session liveTwo)) as Hr
      by (apply succeeds_reachable; vm_refl).
  assert (heldConnected (session liveTwo) = true) as Hc by vm_refl.
  assert ("c2" <> "") as Hne by discriminate.
  destruct (connectEffect_contract "c2" (JStr "jwt") true "host"
              (session liveTwo) Hr) as [_ H].
  destruct (H Hne) as (s' & Hstep & _ & _ & _ & _ & He & Hs & _).
  exists s'. split; [exact Hstep|]. split; [|exact He].
  rewrite Hs, Hc. reflexivity.
Defined.

(** ** Errors of the connection *)

(** What the guard of the classifier and of [handleError] tests. *)
Lemma errorMessage_guard (data : JsVal) :
  isObject data && inv "message" data && isString (getv data "message")
  = match errorMessage data with Some _ => true | None => false end /\
  (forall m, errorMessage data = Some m -> getv data "message" = JStr m).
Proof.
  unfold errorMessage, isObject.
  destruct data as [| | bb | n | x | l | o]; cbn;
    rewrite ?andb_false_r; try (split; [reflexivity | discriminate]).
  unfold has, get.
  destruct (o !! "message") as [[| | bb | n | m | l | o']|]; cbn;
    (split; [reflexivity|]); intros m' [= <-] || discriminate. reflexivity.
Qed.

Lemma classifier_chatErrors (data : JsVal) (s : State) :
  exists es,
    updateStatusWhenErrorMessagePresent data s = calls s es /\
    omap toast es = [] /\ omap navigation es = [] /\
    omap chatError es
    = match errorMessage data with
      | Some m => if String.eqb m "websocket error" || String.eqb m "timeout"
                  then [] else [m]
      | None => []
      end.
Proof.
  destruct (errorMessage_guard data) as [Hg Hm].
  unfold updateStatusWhenErrorMessagePresent. rewrite Hg.
  destruct (errorMessage data) as [m|].
  - rewrite (Hm m eq_refl).
    destruct (String.eqb m "websocket error" || String.eqb m "timeout").
    + exists []. rewrite calls_nil. auto.
    + destruct (inv "data" data && isObject (getv data "data"));
        eexists; (split; [reflexivity|]); cbn; auto.
  - exists []. rewrite calls_nil. auto.
Qed.

(** X7: an error signal redirects only on the share route and only for the
    messages [Conversation not published] and [Conversation not found]: it
    then shows the one toast [Conversation not published] and sets one
    timer, whose expiry navigates to [/].  In every other case (the live
    route, another message, a payload without a string message) it shows no
    toast and sets no timer.  In both cases it reports the message as a
    chat error unless the message is [websocket error] or [timeout]. *)
Theorem error_signal_redirects_on_share_route
    (isShareRoute : bool) (data : JsVal) (s : State) :
  let s' := handleError isShareRoute data s in
  let unpublished :=
    match errorMessage data with
    | Some m => String.eqb m "Conversation not published"
                || String.eqb m "Conversation not found"
    | None => false
    end in
  (if isShareRoute && unpublished
   then toasts s' = toasts s ++ ["Conversation not published"] /\
        navigateTimers s' = S (navigateTimers s) /\
        (forall s'', fireNavigateTimer s' = Some s'' ->
                     navigations s'' = navigations s ++ ["/"])
   else toasts s' = toasts s /\ navigateTimers s' = navigateTimers s) /\
  chatErrors s'
  = chatErrors s
    ++ match errorMessage data with
       | Some m => if String.eqb m "websocket error" || String.eqb m "timeout"
                   then [] else [m]
       | None => []
       end.
Proof.
  cbv zeta. unfold handleError.
  destruct (errorMessage_guard data) as [Hg Hm]. rewrite Hg.
  destruct (classifier_chatErrors data (setStatus s DISCONNECTED))
    as (es & -> & Ht & Hn & Hc).
  rewrite <- Hc.
  destruct s as [sio st evs rs le q pr sp rt nt tr].
  unfold toasts, chatErrors, navigations.
  destruct (errorMessage data) as [m|]; cbn.
  - rewrite (Hm m eq_refl). cbn.
    destruct isShareRoute,
      (String.eqb m "Conversation not published"
       || String.eqb m "Conversation not found"); cbn;
      rewrite ?omap_app, ?Ht, ?Hn; cbn; rewrite ?app_nil_r;
      repeat split.
    intros s'' [= <-]. cbn. rewrite !omap_app, Hn. cbn.
    rewrite !app_nil_r. reflexivity.
  - rewrite ?andb_false_r. cbn. rewrite ?omap_app, ?Ht. cbn.
    rewrite ?app_nil_r. repeat split.
Qed.

(** X8: a disconnect signal reports a chat error exactly when a socket is
    held and the payload is an object with a string [message] other than
    [websocket error] and [timeout]; with no socket held it returns before
    the classifier and reports nothing, whatever the payload.  It never
    shows a toast and sets no timer. *)
Theorem disconnect_signal_reports (data : JsVal) (s : State) :
  let s' := handleDisconnect data s in
  chatErrors s'
  = chatErrors s
    ++ match sioRef s, errorMessage data with
       | Some _, Some m =>
           if String.eqb m "websocket error" || String.eqb m "timeout"
           then [] else [m]
       | _, _ => []
       end /\
  toasts s' = toasts s /\
  navigateTimers s' = navigateTimers s /\
  replayTimers s' = replayTimers s.
Proof.
  cbv zeta. unfold handleDisconnect. cbn.
  destruct (sioRef s) as [sio|].
  - match goal with
    | |- context [updateStatusWhenErrorMessagePresent ?d ?t] =>
        destruct (classifier_chatErrors d t) as (es & -> & Ht & _ & Hc)
    end.
    rewrite <- Hc. unfold chatErrors, toasts. cbn.
    rewrite !omap_app, Ht, app_nil_r. repeat split.
  - unfold chatErrors, toasts. cbn. rewrite app_nil_r. repeat split.
Qed.

(** ** Message actions *)

(** X9: a frame is a message action exactly when its [source] is the string
    [user] or the string [agent] and its [type] is the string [message];
    no frame is both a user message and an assistant message. *)
Theorem isMessageAction_spec (event : Obj) :
  (isMessageAction event = true <->
   (event !! "source" = Some (JStr "user") \/
    event !! "source" = Some (JStr "agent")) /\
   event !! "type" = Some (JStr "message")) /\
  isUserMessage event && isAssistantMessage event = false.
Proof.
  unfold isMessageAction, isUserMessage, isAssistantMessage, has, get.
  destruct (event !! "source") as [[| | | |src| |]|],
           (event !! "type") as [[| | | |ty| |]|]; cbn;
    rewrite ?andb_false_r; cbn;
    try (split; [split; [discriminate | intros [[?|?] ?]; discriminate]
                | reflexivity]).
  destruct (String.eqb_spec src "user") as [Hu|Hu],
           (String.eqb_spec src "agent") as [Ha|Ha],
           (String.eqb_spec ty "message") as [Ht|Ht]; cbn;
    try (subst; discriminate);
    (split; [split; [first [discriminate | subst; auto]
                    | intros [[?|?] ?]; congruence]
            | reflexivity]).
Qed.

(** ** The status and the socket *)

Lemma stepMounted_status (a : Action) (s s' : State) :
  (status s = CONNECTED -> sioRef s <> None) ->
  stepMounted a s = Some s' ->
  status s' = CONNECTED -> sioRef s' <> None.
Proof.
  intros Hinv Hstep. unfold stepMounted in Hstep.
  assert (socketSignal a = true -> sioRef s <> None) as Hsig.
  { intros Ha Hn. rewrite Hn, Ha in Hstep. discriminate. }
  assert (step a s = Some s') as Hstep'.
  { destruct (sioRef s); [exact Hstep|].
    destruct (socketSignal a); [discriminate | exact Hstep]. }
  clear Hstep. rename Hstep' into Hstep.
  destruct a as [ev| | | | |b ev|b data|data| | |c j b u| |];
    unfold step in Hstep.
  - injection Hstep as <-. unfold send. case_cond; status_keep Hinv.
  - injection Hstep as <-. rewrite disconnect_eq.
    case_cond; status_keep Hinv.
  - injection Hstep as <-.
    destruct (messageQueueRef s) as [|e rest] eqn:Hq.
    + rewrite skipToResults_empty by assumption. exact Hinv.
    + destruct (skipToResults_drains s)
        as (_ & _ & _ & _ & _ & _ & _ & -> & -> & _); [congruence|].
      exact Hinv.
  - injection Hstep as <-. unfold resetReplay, processMessageQueue. cbn.
    repeat case_cond; status_keep Hinv.
  - injection Hstep as <-. cbn. intros _.
    destruct (sioRef s); [discriminate | exact (Hsig eq_refl)].
  - assert (s' = handleMessage b ev s) as -> by congruence.
    unfold handleMessage, processMessageQueue.
    destruct (isOpenHandsEvent (JObj ev) && isMessageAction ev), b; cbn;
      repeat case_cond; status_keep Hinv.
  - injection Hstep as <-. unfold handleError.
    classifier_calls_by updateStatusWhenErrorMessagePresent_reports;
      repeat case_cond; status_keep Hinv.
  - injection Hstep as <-. unfold handleDisconnect. cbn.
    destruct (sioRef s); cbn; [|discriminate].
    classifier_calls_by updateStatusWhenErrorMessagePresent_reports;
      status_keep Hinv.
  - unfold fireReplayTimer in Hstep.
    destruct (replayTimers s); [discriminate|]. injection Hstep as <-.
    unfold replayTimerCallback, processMessageQueue. cbn.
    repeat case_cond; status_keep Hinv.
  - unfold fireNavigateTimer in Hstep.
    destruct (navigateTimers s); [discriminate|]. injection Hstep as <-.
    exact Hinv.
  - rewrite connectEffect_eq in Hstep.
    destruct (negb (truthy (JStr c))); [discriminate|].
    injection Hstep as <-. cbn. discriminate.
  - injection Hstep as <-. exact Hinv.
  - injection Hstep as <-. exact Hinv.
Qed.

Lemma mounted_status (s : State) :
  mounted s -> status s = CONNECTED -> sioRef s <> None.
Proof.
  induction 1 as [|a s s' _ IH Hstep].
  - discriminate.
  - exact (stepMounted_status a s s' IH Hstep).
Qed.

Lemma mounted_run (actions : list Action) :
  forall s s', mounted s -> runMounted actions s = Some s' -> mounted s'.
Proof.
  induction actions as [|a actions IH]; intros s s' Hs Hrun; cbn in Hrun.
  - congruence.
  - destruct (stepMounted a s) as [s1|] eqn:Hstep; [|discriminate].
    cbn in Hrun. eauto using mounted_step.
Qed.

(** X13: in a provider whose socket signals come from the socket it holds,
    the status is [CONNECTED] only while a socket is held.  So whenever the
    chat interface leaves its chat box enabled (which needs a status other
    than [DISCONNECTED]), [send] hands the event to the socket as
    [oh_user_action] and logs no error. *)
Theorem connected_status_has_socket (s : State) :
  mounted s ->
  (status s = CONNECTED -> sioRef s <> None) /\
  (forall (loading awaitingConfirmation : bool) (event : Obj),
      chatBoxDisabled loading awaitingConfirmation (status s) = false ->
      send event s = call s (sio_emit "oh_user_action" event) /\
      transmitted (send event s)
      = transmitted s ++ [("oh_user_action", event)]).
Proof.
  intros Hm. pose proof (mounted_status s Hm) as Hs. split; [exact Hs|].
  intros l w event Hd. unfold chatBoxDisabled in Hd.
  destruct (status s) eqn:Hst;
    [|rewrite !orb_true_r in Hd; discriminate].
  unfold send. destruct (sioRef s); [|exfalso; apply Hs; reflexivity].
  simpl_state. split; reflexivity.
Qed.

Lemma connected_status_has_socket_witness :
  transmitted (send frame3 mountedTwo)
  = transmitted mountedTwo ++ [("oh_user_action", frame3)].
Proof.
  assert (mounted mountedTwo) as Hm.
  { apply (mounted_run liveTwo initialState mountedTwo).
    - apply mounted_mount.
    - apply (succeeds_default initialState). vm_refl. }
  assert (chatBoxDisabled false false (status mountedTwo) = false)
    as Hd by vm_refl.
  destruct (connected_status_has_socket mountedTwo Hm) as [_ H].
  destruct (H false false frame3 Hd) as [_ Ht].
  exact Ht.
Defined.

(** ** The file shown first *)

Lemma foldl_bucket (files : list string) :
  forall b,
    htmlFiles (foldl bucket b files)
    = htmlFiles b ++ List.filter isHtml files /\
    txtFiles (foldl bucket b files)
    = txtFiles b ++ List.filter isTxt files /\
    mdFiles (foldl bucket b files) = mdFiles b ++ List.filter isMd files.
Proof.
  induction files as [|e files IH]; intros b; cbn [foldl List.filter].
  - rewrite !app_nil_r. auto.
  - destruct (IH (bucket b e)) as (-> & -> & ->).
    unfold bucket, isHtml, isTxt, isMd.
    destruct (includes ".html" e), (includes ".md" e), (includes ".txt" e);
      cbn; rewrite <- ?app_assoc; auto.
Qed.

Lemma head_filter_find (p : string -> bool) (l : list string) :
  head (List.filter p l) = List.find p l.
Proof.
  induction l as [|x l IH]; cbn; [reflexivity|].
  destruct (p x); [reflexivity | exact IH].
Qed.

Lemma includes_nonempty (sub e : string) :
  sub <> "" -> includes sub e = true -> String.eqb e "" = false.
Proof.
  intros Hsub. destruct e; [|reflexivity].
  cbn. destruct sub; [congruence | discriminate].
Qed.

Lemma orElse_some (e : string) (b : option string) :
  String.eqb e "" = false -> orElse (Some e) b = Some e.
Proof. intros H. cbn. rewrite H. reflexivity. Qed.

(** X14: the effect of the chat interface on [files] dispatches the first
    file that includes [.md] and not [.html]; failing that the first file
    that includes [.txt] and neither [.md] nor [.html]; failing that the
    first file that includes [.html]; and nothing when the list is not
    loaded, is empty or holds no such file.  The file dispatched is one of
    the list. *)
Theorem priorityFile_spec (files : option (list string)) :
  priorityFile files
  = match files with
    | Some l =>
        match List.find isMd l with
        | Some e => Some e
        | None =>
            match List.find isTxt l with
            | Some e => Some e
            | None => List.find isHtml l
            end
        end
    | None => None
    end /\
  (forall e, priorityFile files = Some e ->
             exists l, files = Some l /\ In e l /\
                       (includes ".md" e || includes ".txt" e
                        || includes ".html" e = true)).
Proof.
  assert (priorityFile files
          = match files with
            | Some l =>
                match List.find isMd l with
                | Some e => Some e
                | None =>
                    match List.find isTxt l with
                    | Some e => Some e
                    | None => List.find isHtml l
                    end
                end
            | None => None
            end) as Hspec.
  { destruct files as [[|f l]|]; [reflexivity| |reflexivity].
    unfold priorityFile.
    destruct (foldl_bucket (f :: l) (mkBuckets [] [] [])) as (-> & -> & ->).
    cbn [htmlFiles txtFiles mdFiles app].
    rewrite !head_filter_find.
    assert (forall e, isMd e = true -> String.eqb e "" = false) as Hmd.
    { intros e He. unfold isMd in He. apply andb_true_iff in He as [_ He].
      apply (includes_nonempty ".md"); [discriminate | exact He]. }
    assert (forall e, isTxt e = true -> String.eqb e "" = false) as Htxt.
    { intros e He. unfold isTxt in He. apply andb_true_iff in He as [_ He].
      apply (includes_nonempty ".txt"); [discriminate | exact He]. }
    assert (forall e, isHtml e = true -> String.eqb e "" = false) as Hhtml.
    { intros e He.
      apply (includes_nonempty ".html"); [discriminate | exact He]. }
    destruct (List.find isMd (f :: l)) as [x|] eqn:Fmd.
    { apply List.find_some in Fmd as [_ Hx].
      rewrite !(orElse_some x) by auto. reflexivity. }
    cbn [orElse].
    destruct (List.find isTxt (f :: l)) as [x|] eqn:Ftxt.
    { apply List.find_some in Ftxt as [_ Hx].
      rewrite !(orElse_some x) by auto. reflexivity. }
    cbn [orElse].
    destruct (List.find isHtml (f :: l)) as [x|] eqn:Fhtml; [|reflexivity].
    apply List.find_some in Fhtml as [_ Hx].
    rewrite !(orElse_some x) by auto. reflexivity. }
  split; [exact Hspec|].
  intros e He. rewrite Hspec in He.
  destruct files as [l|]; [|discriminate]. exists l. split; [reflexivity|].
  destruct (List.find isMd l) as [x|] eqn:Hmd.
  - injection He as ->. apply List.find_some in Hmd as [Hin Hp].
    split; [exact Hin|]. unfold isMd in Hp.
    apply andb_true_iff in Hp as [_ ->]. reflexivity.
  - destruct (List.find isTxt l) as [x|] eqn:Htxt.
    + injection He as ->. apply List.find_some in Htxt as [Hin Hp].
      split; [exact Hin|]. unfold isTxt in Hp.
      apply andb_true_iff in Hp as [_ ->]. rewrite orb_true_r. reflexivity.
    + apply List.find_some in He as [Hin Hp].
      split; [exact Hin|]. unfold isHtml in Hp. rewrite Hp.
      rewrite !orb_true_r. reflexivity.
Qed.

Example priorityFile_examples :
  priorityFile (Some ["index.html"; "notes.txt"; "report.md"; "b.md"])
  = Some "report.md" /\
  priorityFile (Some ["a.md.html"; "notes.txt"]) = Some "notes.txt" /\
  priorityFile (Some ["main.py"]) = None /\
  priorityFile (Some []) = None /\ priorityFile None = None.
Proof. vm_conj. Qed.

(** ** The replay status *)

(** X16: once [replayStatus] is [COMPLETED] it stays so through every call,
    signal and timer, later arrivals on the share route included; only
    [resetReplay] and a run of the connection effect on the share route set
    it back to [IN_PROGRESS]. *)
Theorem completed_replay_stays_completed (a : Action) (s s' : State) :
  step a s = Some s' ->
  replayStatus s = COMPLETED ->
  isResetReplay a = false ->
  match a with Effect_run _ _ true _ => False | _ => True end ->
  replayStatus s' = COMPLETED.
Proof.
  intros Hstep Hc Hr He.
  destruct s as [sio st evs rs le q pr sp rt nt tr]. cbn in Hc. subst rs.
  destruct a as [ev| | | | |b ev|b data|data| | |c j b u| |];
    try discriminate Hr; unfold step in Hstep.
  - injection Hstep as <-. unfold send. destruct sio; reflexivity.
  - injection Hstep as <-. rewrite disconnect_eq. destruct sio; reflexivity.
  - injection Hstep as <-. unfold skipToResults. cbn.
    destruct q; reflexivity.
  - injection Hstep as <-. reflexivity.
  - injection Hstep as <-. unfold handleMessage, processMessageQueue.
    destruct (isOpenHandsEvent (JObj ev) && isMessageAction ev), b; cbn;
      repeat case_cond; reflexivity.
  - injection Hstep as <-. unfold handleError.
    classifier_calls_by updateStatusWhenErrorMessagePresent_reports; repeat case_cond; reflexivity.
  - injection Hstep as <-. unfold handleDisconnect. cbn.
    destruct sio; cbn; [|reflexivity].
    classifier_calls_by updateStatusWhenErrorMessagePresent_reports;
      reflexivity.
  - unfold fireReplayTimer in Hstep. cbn in Hstep.
    destruct rt; [discriminate|]. injection Hstep as <-.
    unfold replayTimerCallback, processMessageQueue. cbn.
    repeat case_cond; reflexivity.
  - unfold fireNavigateTimer in Hstep. cbn in Hstep.
    destruct nt; [discriminate|]. injection Hstep as <-. reflexivity.
  - destruct b; [destruct He|].
    rewrite connectEffect_eq in Hstep.
    destruct (negb (truthy (JStr c))); [discriminate|].
    injection Hstep as <-. reflexivity.
  - injection Hstep as <-. reflexivity.
  - injection Hstep as <-. reflexivity.
Qed.

Lemma completed_replay_stays_completed_witness :
  replayStatus lateArrival = COMPLETED /\
  events lateArrival = [frame1; frame2; frame3; frameNoType].
Proof.
  split; [|vm_refl].
  assert (succeeds (step (On_oh_event true frameNoType) (session replayDone))
          = true) as Hstep by vm_refl.
  assert (replayStatus (session replayDone) = COMPLETED) as Hc by vm_refl.
  exact (completed_replay_stays_completed (On_oh_event true frameNoType)
           (session replayDone) lateArrival
           (succeeds_default initialState _ Hstep) Hc eq_refl I).
Defined.

(** ** A timer that outlives its session *)

(** An arrival on the share route while the scheduler is busy only joins
    the queue; one that finds it idle with nothing waiting is delivered. *)
Lemma handleMessage_busy (e : Obj) (s : State) :
  processingQueueRef s = true ->
  let s' := handleMessage true e s in
  events s' = events s /\ delivered s' = delivered s /\
  messageQueueRef s' = messageQueueRef s ++ [e] /\
  replayTimers s' = replayTimers s /\ processingQueueRef s' = true /\
  shouldProcessMessagesRef s' = shouldProcessMessagesRef s /\
  replayStatus s' = replayStatus s.
Proof.
  destruct s as [sio st evs rs le q pr sp rt nt tr].
  unfold handleMessage, processMessageQueue. cbn. intros ->.
  destruct (isOpenHandsEvent (JObj e) && isMessageAction e);
    cbn; rewrite ?orb_true_r; cbn; rewrite ?length_app; cbn;
    try replace (length q + 1 =? 0)%nat with false
      by (symmetry; apply Nat.eqb_neq; lia);
    rewrite ?andb_false_r; simpl_state; repeat split.
Qed.

Lemma receive_busy (frames : list Obj) :
  forall s,
    processingQueueRef s = true ->
    let s' := receive true frames s in
    events s' = events s /\ delivered s' = delivered s /\
    messageQueueRef s' = messageQueueRef s ++ frames /\
    replayTimers s' = replayTimers s /\ processingQueueRef s' = true /\
    shouldProcessMessagesRef s' = shouldProcessMessagesRef s /\
    replayStatus s' = replayStatus s.
Proof.
  induction frames as [|e frames IH]; intros s Hp; cbv zeta.
  - cbn. rewrite app_nil_r. auto 10.
  - unfold receive in *. cbn [foldl].
    destruct (handleMessage_busy e s Hp)
      as (He & Hd & Hq & Ht & Hp' & Hf & Hr).
    destruct (IH (handleMessage true e s) Hp')
      as (He' & Hd' & Hq' & Ht' & Hp'' & Hf' & Hr').
    rewrite He', Hd', Hq', Ht', Hf', Hr', He, Hd, Hq, Ht, Hf, Hr.
    rewrite <- app_assoc. auto 10.
Qed.

Lemma handleMessage_idle (e : Obj) (s : State) :
  processingQueueRef s = false -> shouldProcessMessagesRef s = true ->
  messageQueueRef s = [] ->
  let s' := handleMessage true e s in
  events s' = events s ++ [e] /\ delivered s' = delivered s ++ [e] /\
  messageQueueRef s' = [] /\
  replayTimers s' = S (replayTimers s) /\ processingQueueRef s' = true /\
  shouldProcessMessagesRef s' = true /\
  replayStatus s' = replayStatus s.
Proof.
  destruct s as [sio st evs rs le q pr sp rt nt tr].
  unfold handleMessage, processMessageQueue. cbn. intros -> -> ->.
  destruct (isOpenHandsEvent (JObj e) && isMessageAction e); cbn;
    destruct (idParses e); simpl_state; repeat split.
Qed.

(** X17: no teardown cancels a replay timer, and the callbacks of all
    sessions are the same code.  When the connection effect runs again on
    the share route while a replay timer of the old session is pending, what
    the expiry of that timer does depends on what has arrived of the new
    session by then.  With nothing arrived it delivers nothing and marks
    the new session [COMPLETED].  With one frame arrived (delivered at its
    arrival) it delivers nothing and marks the session [COMPLETED] while
    the session's own timer is pending.  With two or more arrived it
    delivers the second frame, ahead of the session's own timer, and sets a
    further timer, so that two timers drive the new session.  In every case
    [events] starts with the log of the old session, which the effect never
    clears. *)
Theorem stale_timer_acts_in_new_session (conversationId : string)
    (jwt : JsVal) (url : string) (frames : list Obj) (s s1 : State)
    (n : nat) :
  replayTimers s = S n ->
  step (Effect_run conversationId jwt true url) (connectEffectCleanup s)
  = Some s1 ->
  replayStatus s1 = IN_PROGRESS /\
  exists s3,
    fireReplayTimer (receive true frames s1) = Some s3 /\
    match frames with
    | [] =>
        events s3 = events s /\ delivered s3 = delivered s /\
        messageQueueRef s3 = [] /\ replayTimers s3 = n /\
        replayStatus s3 = COMPLETED
    | [f] =>
        events (receive true frames s1) = events s ++ [f] /\
        events s3 = events s ++ [f] /\ delivered s3 = delivered s ++ [f] /\
        messageQueueRef s3 = [] /\ replayTimers s3 = S n /\
        replayStatus s3 = COMPLETED
    | f :: g :: rest =>
        events (receive true frames s1) = events s ++ [f] /\
        events s3 = events s ++ [f; g] /\
        delivered s3 = delivered s ++ [f; g] /\
        messageQueueRef s3 = rest /\ replayTimers s3 = S (S n) /\
        replayStatus s3 = IN_PROGRESS /\ processingQueueRef s3 = true
    end.
Proof.
  intros Hn Hrun. unfold step in Hrun.
  assert (replayStatus s1 = IN_PROGRESS) as Hrs.
  { rewrite connectEffect_eq in Hrun.
    destruct (negb (truthy (JStr conversationId))); [discriminate|].
    injection Hrun as <-. reflexivity. }
  split; [exact Hrs|].
  destruct (connectEffect_resets _ _ _ _ _ _ Hrun)
    as (Hp & Hq & Hpr & _ & He & Hd & _ & Ht & _).
  cbn in He, Hd, Ht. rewrite Hn in Ht.
  destruct frames as [|f [|g rest]].
  - cbn [receive foldl].
    destruct (fireReplayTimer_alive s1 n Hp Ht) as (s3 & Hf & _ & _ & _ & H).
    rewrite Hq in H. destruct H as (He3 & Hq3 & Ht3 & Hr3 & _ & Hd3 & _).
    exists s3. split; [exact Hf|]. rewrite He3, Hd3, He, Hd. auto.
  - cbn [receive foldl].
    destruct (handleMessage_idle f s1 Hpr Hp Hq)
      as (He2 & Hd2 & Hq2 & Ht2 & _ & Hp2 & _).
    rewrite Ht in Ht2.
    destruct (fireReplayTimer_alive _ (S n) Hp2 Ht2)
      as (s3 & Hf & _ & _ & _ & H).
    rewrite Hq2 in H. destruct H as (He3 & Hq3 & Ht3 & Hr3 & _ & Hd3 & _).
    exists s3. split; [exact Hf|].
    rewrite He3, Hd3, He2, Hd2, He, Hd. auto 10.
  - pose proof (receive_busy rest) as Hbusy.
    unfold receive in *. cbn [foldl].
    destruct (handleMessage_idle f s1 Hpr Hp Hq)
      as (He2 & Hd2 & Hq2 & Ht2 & Hpr2 & Hp2 & Hr2).
    destruct (handleMessage_busy g _ Hpr2)
      as (He2' & Hd2' & Hq2' & Ht2' & Hpr2' & Hp2' & Hr2').
    destruct (Hbusy _ Hpr2')
      as (He4 & Hd4 & Hq4 & Ht4 & _ & Hp4 & Hr4).
    rewrite Hp2', Hp2 in Hp4. rewrite Ht2', Ht2, Ht in Ht4.
    destruct (fireReplayTimer_alive _ (S n) Hp4 Ht4)
      as (s3 & Hf & _ & _ & _ & H).
    rewrite Hq4, Hq2', Hq2 in H. cbn [app] in H.
    destruct H as (He3 & Hq3 & Ht3 & Hr3 & Hpr3 & Hd3 & _).
    exists s3. split; [exact Hf|].
    rewrite He3, Hd3, Hr3, He4, Hd4, Hr4, He2', Hd2', Hr2', He2, Hd2, Hr2.
    rewrite He, Hd, <- !app_assoc. auto 10.
Qed.

Lemma stale_timer_acts_in_new_session_witness :
  replayStatus staleRestarted = IN_PROGRESS /\
  exists s3,
    fireReplayTimer (receive true [frame11; frame12] staleRestarted)
    = Some s3 /\
    events s3 = events (session replayThree) ++ [frame11; frame12] /\
    replayTimers s3 = 2.
Proof.
  assert (replayTimers (session replayThree) = 1) as Hn by vm_refl.
  assert (succeeds (step (Effect_run "c2" (JStr "jwt") true "host")
                      (connectEffectCleanup (session replayThree))) = true)
    as Hrun by vm_refl.
  destruct (stale_timer_acts_in_new_session "c2" (JStr "jwt") "host"
              [frame11; frame12] (session replayThree) staleRestarted 0 Hn
              (succeeds_default initialState _ Hrun))
    as (Hs1 & s3 & Hf & _ & He & _ & _ & Ht & _).
  split; [exact Hs1|]. exists s3.
  split; [exact Hf|]. split; [exact He | exact Ht].
Defined.
